(** * The simple debugger (sdb) of NEMU: command handlers and main loop

    A shallow embedding of [nemu/src/monitor/sdb/sdb.c].  The handlers are
    functions in a small monad that threads the monitor's state, stops at
    undefined behaviour, and records the calls made to the rest of NEMU
    (execution engine, expression evaluator, memory reader, watchpoint
    pool) together with the text written by [printf]. *)

From Stdlib Require Import ZArith List String Ascii Bool Lia.
Import ListNotations.

Local Open Scope string_scope.
Local Open Scope Z_scope.

(** ** C integers *)

Module CInt.

(** [int] is 32 bits wide.  [word_t] and [vaddr_t] come from [common.h];
    the handlers print a [sword_t] with [%d] under [-Wall -Werror], so
    they are the 32-bit [uint32_t] here and [sword_t] is [int32_t]. *)
Definition INT_MIN : Z := - 2 ^ 31.
Definition INT_MAX : Z := 2 ^ 31 - 1.
Definition LONG_MIN : Z := - 2 ^ 63.
Definition LONG_MAX : Z := 2 ^ 63 - 1.

(** Conversion to [uint32_t] ([word_t], [vaddr_t]). *)
Definition to_word (v : Z) : Z := v mod 2 ^ 32.

(** Conversion to [int] ([sword_t]): the two's complement reading of the
    low 32 bits. *)
Definition to_int (v : Z) : Z := (v + 2 ^ 31) mod 2 ^ 32 - 2 ^ 31.

(** The mathematical result of an [int] operation is an [int].  When it is
    not, the operation overflows and its behaviour is undefined. *)
Definition in_int (v : Z) : bool := (INT_MIN <=? v) && (v <=? INT_MAX).

(** Conversion to [uint8_t]. *)
Definition to_uint8 (v : Z) : Z := v mod 2 ^ 8.

End CInt.

(** ** The C library functions the monitor calls *)

Module Libc.

Definition is_in (c : ascii) (set : string) : bool :=
  existsb (Ascii.eqb c) (list_ascii_of_string set).

(** [drop k s] is the pointer [s + k]. *)
Fixpoint drop (k : nat) (s : string) : string :=
  match k, s with
  | O, _ => s
  | S _, EmptyString => EmptyString
  | S k', String _ s' => drop k' s'
  end.

(** [strspn s accept]: length of the leading run of characters of [s]
    that are in [accept]. *)
Fixpoint strspn (s accept : string) : nat :=
  match s with
  | EmptyString => O
  | String c s' => if is_in c accept then S (strspn s' accept) else O
  end.

(** [strcspn s reject]: length of the leading run of characters of [s]
    that are not in [reject]. *)
Fixpoint strcspn (s reject : string) : nat :=
  match s with
  | EmptyString => O
  | String c s' => if is_in c reject then O else S (strcspn s' reject)
  end.

(** [strtok arg delim olds]: [arg] is the first argument ([None] is
    [NULL], which resumes at the saved position), [olds] the text at the
    position saved by the previous call.  The result is the token
    ([None] when there is none) and the text at the new saved position:
    just after the delimiter that ended the token, or the end of the
    buffer. *)
Definition strtok (arg : option string) (delim olds : string)
  : option string * string :=
  let s := match arg with Some a => a | None => olds end in
  let s := drop (strspn s delim) s in
  match s with
  | EmptyString => (None, EmptyString)
  | _ =>
      let k := strcspn s delim in
      (Some (substring 0 k s), drop (S k) s)
  end.

(** [strcmp a b == 0]. *)
Definition streq (a b : string) : bool := String.eqb a b.

Definition isspace (c : ascii) : bool :=
  let n := nat_of_ascii c in
  (Nat.eqb n 32 || (Nat.leb 9 n && Nat.leb n 13))%bool.

Fixpoint skip_space (s : string) : string :=
  match s with
  | EmptyString => EmptyString
  | String c s' => if isspace c then skip_space s' else s
  end.

Definition digit_val (c : ascii) : option Z :=
  let n := nat_of_ascii c in
  if (Nat.leb 48 n && Nat.leb n 57)%bool then Some (Z.of_nat n - 48)
  else None.

(** The digits at the front of [s], read as a decimal number continuing
    [acc]; [None] when [s] starts with no digit and [seen] is false. *)
Fixpoint read_digits (s : string) (acc : Z) (seen : bool) : option Z :=
  match s with
  | EmptyString => if seen then Some acc else None
  | String c s' =>
      match digit_val c with
      | Some d => read_digits s' (10 * acc + d) true
      | None => if seen then Some acc else None
      end
  end.

Definition clamp_long (v : Z) : Z :=
  Z.max CInt.LONG_MIN (Z.min CInt.LONG_MAX v).

(** [sscanf(s, "%d", &n)]: white space is skipped, then an optional sign
    and a non-empty run of digits are read.  [Some v] is the value stored
    in [n]; [None] is a matching failure, which stores nothing.  The
    number is converted as by [strtol] and stored as an [int]. *)
Definition sscanf_d (s : string) : option Z :=
  let s := skip_space s in
  let '(neg, s) :=
    match s with
    | String "-"%char s' => (true, s')
    | String "+"%char s' => (false, s')
    | _ => (false, s)
    end in
  match read_digits s 0 false with
  | Some v => Some (CInt.to_int (clamp_long (if neg then - v else v)))
  | None => None
  end.

(** *** [printf] conversions *)

(** The string ["\n"]. *)
Definition nl : string := String (ascii_of_nat 10) EmptyString.

Definition dec_digit (v : Z) : ascii := ascii_of_nat (48 + Z.to_nat v).

Definition hex_digit (v : Z) : ascii :=
  if v <? 10 then ascii_of_nat (48 + Z.to_nat v)
  else ascii_of_nat (87 + Z.to_nat v).

(** The digits of [v >= 0] in base [base], most significant first. *)
Fixpoint digits (fuel : nat) (base : Z) (digit : Z -> ascii) (v : Z)
    (acc : string) : string :=
  match fuel with
  | O => acc
  | S fuel' =>
      let acc' := String (digit (v mod base)) acc in
      if v / base =? 0 then acc'
      else digits fuel' base digit (v / base) acc'
  end.

(** [%d] of an [int]. *)
Definition fmt_d (v : Z) : string :=
  if v <? 0 then String "-"%char (digits 10 10 dec_digit (- v) EmptyString)
  else digits 10 10 dec_digit v EmptyString.

(** [%x] of an [unsigned int]. *)
Definition fmt_x (v : Z) : string := digits 8 16 hex_digit v EmptyString.

Fixpoint zeros (k : nat) : string :=
  match k with O => EmptyString | S k' => String "0"%char (zeros k') end.

(** [%02x]: at least two digits, padded with zeros on the left. *)
Definition fmt_02x (v : Z) : string :=
  let d := fmt_x v in (zeros (2 - String.length d) ++ d)%string.

End Libc.

(** ** The monitor *)

Module Sdb.

Import CInt Libc.

(** What the monitor does to the outside: the calls it makes to the rest
    of NEMU and to readline, in order, and the text it prints. *)
Inductive event : Type :=
| Readline (prompt : string) (line : option string)
| AddHistory (line : string)
| CpuExec (n : Z)
| IsaRegDisplay
| ShowWatchpoint
| DeleteWatchpoint (n : Z)
| NewWp (e : option string) (val : Z)
| Expr (e : option string)
| VaddrRead (addr : Z) (len : Z)
| SetQuit
| Printf (text : string).

(** A C computation either yields a value or runs into undefined
    behaviour (here: a null pointer handed to [strcmp] or dereferenced, or
    an [int] product that overflows). *)
Inductive res (A : Type) : Type :=
| Val (a : A)
| Fault.
Arguments Val {A} a.
Arguments Fault {A}.

(** The rest of NEMU as [sdb.c] sees it: the simulated machine with its
    watchpoint pool, and the functions that [sdb.c] declares and calls.
    A [char *] argument is an [option string], [None] being [NULL]. *)
Class Nemu : Type := {
  machine : Type;
  (** [cpu_exec(n)]. *)
  cpu_exec : Z -> machine -> machine;
  (** [expr(e, &success)]: the value returned and [success] after the
      call, given [success] before the call. *)
  expr : option string -> bool -> machine -> Z * bool;
  (** [vaddr_read(addr, len)]. *)
  vaddr_read : Z -> Z -> machine -> Z;
  (** [new_wp(expr, val)]: the [NO] field of the watchpoint returned, or
      [None] for a null pointer. *)
  new_wp : option string -> Z -> machine -> option Z * machine;
  (** [delete_watchpoint(n)]. *)
  delete_watchpoint : Z -> machine -> Z * machine;
  (** The assignment [nemu_state.state = NEMU_QUIT]. *)
  nemu_quit : machine -> machine
}.

Section Monitor.

Context {N : Nemu}.

(** The monitor's own state: the machine, the flag [is_batch_mode] and
    the position saved by [strtok] (the text from there on). *)
Record sdb : Type := mk_sdb {
  mach : machine;
  is_batch_mode : bool;
  olds : string
}.

Definition set_mach (m : machine) (s : sdb) : sdb :=
  mk_sdb m (is_batch_mode s) (olds s).

Definition set_olds (o : string) (s : sdb) : sdb :=
  mk_sdb (mach s) (is_batch_mode s) o.

Definition M (A : Type) : Type := sdb -> res A * sdb * list event.

Definition ret {A} (a : A) : M A := fun s => (Val a, s, []).

Definition bind {A B} (m : M A) (f : A -> M B) : M B :=
  fun s =>
    match m s with
    | (Val a, s1, t1) =>
        let '(r, s2, t2) := f a s1 in (r, s2, (t1 ++ t2)%list)
    | (Fault, s1, t1) => (Fault, s1, t1)
    end.

Definition fault {A} : M A := fun s => (Fault, s, []).

Definition emit (e : event) : M unit := fun s => (Val tt, s, [e]).

Notation "x <- m ;; k" := (bind m (fun x => k))
  (at level 61, m at next level, right associativity).
Notation "m ;; k" := (bind m (fun _ => k))
  (at level 61, right associativity).

Definition printf (text : string) : M unit := emit (Printf text).

Definition do_strtok (arg : option string) (delim : string)
  : M (option string) :=
  fun s =>
    let '(tok, o) := strtok arg delim (olds s) in
    (Val tok, set_olds o s, []).

Definition do_cpu_exec (n : Z) : M unit :=
  fun s => (Val tt, set_mach (cpu_exec n (mach s)) s, [CpuExec n]).

(** The value comes back as a [word_t]. *)
Definition do_expr (e : option string) (success : bool) : M (Z * bool) :=
  fun s =>
    let '(v, ok) := expr e success (mach s) in
    (Val (to_word v, ok), s, [Expr e]).

Definition do_vaddr_read (addr len : Z) : M Z :=
  fun s => (Val (to_word (vaddr_read addr len (mach s))), s,
            [VaddrRead addr len]).

Definition do_new_wp (e : option string) (val : Z) : M (option Z) :=
  fun s =>
    let '(wp, m) := new_wp e val (mach s) in
    (Val wp, set_mach m s, [NewWp e val]).

Definition do_delete_watchpoint (n : Z) : M Z :=
  fun s =>
    let '(r, m) := delete_watchpoint n (mach s) in
    (Val r, set_mach m s, [DeleteWatchpoint n]).

Definition do_nemu_quit : M unit :=
  fun s => (Val tt, set_mach (nemu_quit (mach s)) s, [SetQuit]).

(** [n] after [int n = 0; sscanf(s, "%d", &n);]. *)
Definition scan_int (s : string) : Z :=
  match sscanf_d s with Some v => v | None => 0 end.

(** [rl_gets], given what [readline] returns; the release of the previous
    line is not part of the model. *)
Definition rl_gets (line_read : option string) : M unit :=
  emit (Readline "(nemu) " line_read);;
  match line_read with
  | Some (String c l) => emit (AddHistory (String c l))
  | _ => ret tt
  end.

Definition cmd_c (args : option string) : M Z :=
  do_cpu_exec (-1);;
  ret 0.

Definition cmd_q (args : option string) : M Z :=
  do_nemu_quit;;
  ret (-1).

(** The name and description columns of [cmd_table]. *)
Definition cmd_names : list (string * string) :=
  [ ("help", "Display information about all supported commands");
    ("c", "Continue the execution of the program");
    ("q", "Exit NEMU");
    ("si", "Step through N instructions");
    ("info", "Show the infomation of reg and watch point");
    ("x", "Scan the memory");
    ("p", "Expressions evaluate");
    ("w", "Set the watch point");
    ("d", "delete the watch point") ].

Definition help_line (e : string * string) : string :=
  (fst e ++ " - " ++ snd e ++ nl)%string.

Fixpoint help_all (tbl : list (string * string)) : M unit :=
  match tbl with
  | [] => ret tt
  | e :: tbl' => printf (help_line e);; help_all tbl'
  end.

Fixpoint help_one (arg : string) (tbl : list (string * string)) : M Z :=
  match tbl with
  | [] =>
      printf ("Unknown command '" ++ arg ++ "'" ++ nl);;
      ret 0
  | e :: tbl' =>
      if streq arg (fst e) then printf (help_line e);; ret 0
      else help_one arg tbl'
  end.

Definition cmd_help (args : option string) : M Z :=
  arg <- do_strtok None " ";;
  match arg with
  | None => help_all cmd_names;; ret 0
  | Some arg => help_one arg cmd_names
  end.

Definition cmd_si (args : option string) : M Z :=
  let n := match args with
           | None => 1
           | Some a => scan_int a
           end in
  do_cpu_exec n;;
  ret 0.

Definition cmd_info (args : option string) : M Z :=
  match args with
  | None => fault
  | Some a =>
      (if streq a "r" then emit IsaRegDisplay
       else if streq a "w" then emit ShowWatchpoint
       else printf ("Unknow parma" ++ nl));;
      ret 0
  end.

(** The body of the loop of [cmd_x], run [k] times from index [i].  The
    loop of [cmd_x] runs it [4 * n] times when that product is an [int]
    (not at all when it is negative); when the product overflows, the
    behaviour of [cmd_x] is undefined. *)
Fixpoint scan_bytes (k : nat) (addr i : Z) : M unit :=
  match k with
  | O => ret tt
  | S k' =>
      val <- do_vaddr_read (to_word (addr + i)) 1;;
      printf (fmt_02x (to_uint8 val) ++ " ");;
      scan_bytes k' addr (i + 1)
  end.

Definition cmd_x (args : option string) : M Z :=
  parma1 <- do_strtok args " ";;
  parma2 <- do_strtok None " ";;
  match parma1, parma2 with
  | Some parma1, Some parma2 =>
      let n := scan_int parma1 in
      r <- do_expr (Some parma2) false;;
      let addr := fst r in
      (if in_int (4 * n) then scan_bytes (Z.to_nat (4 * n)) addr 0
       else fault);;
      printf nl;;
      ret 0
  | _, _ =>
      printf ("Unknow parma" ++ nl);;
      ret 0
  end.

Definition cmd_p (args : option string) : M Z :=
  r <- do_expr args true;;
  let val := to_int (fst r) in
  (if snd r then printf ("val = " ++ fmt_d val ++ nl)
   else printf ("expr false, please correctly input again!" ++ nl));;
  ret 0.

Definition cmd_w (args : option string) : M Z :=
  r <- do_expr args true;;
  let val := fst r in
  (if snd r then
     wp <- do_new_wp args val;;
     match wp with
     | Some NO =>
         printf ("watch point " ++ fmt_d NO ++ " set succeed" ++ nl)
     | None => fault
     end
   else ret tt);;
  ret 0.

Definition cmd_d (args : option string) : M Z :=
  param <- do_strtok args " ";;
  match param with
  | None =>
      printf ("Unknow parma" ++ nl);;
      ret 0
  | Some param =>
      let n := scan_int param in
      r <- do_delete_watchpoint n;;
      if r =? 1 then
        printf ("delete succeed!" ++ nl);;
        ret 0
      else
        printf ("delete failed, please input correct number!" ++ nl);;
        ret (-1)
  end.

Record command : Type := mk_command {
  name : string;
  description : string;
  handler : option string -> M Z
}.

Definition cmd_table : list command :=
  [ mk_command "help"
      "Display information about all supported commands" cmd_help;
    mk_command "c" "Continue the execution of the program" cmd_c;
    mk_command "q" "Exit NEMU" cmd_q;
    mk_command "si" "Step through N instructions" cmd_si;
    mk_command "info" "Show the infomation of reg and watch point"
      cmd_info;
    mk_command "x" "Scan the memory" cmd_x;
    mk_command "p" "Expressions evaluate" cmd_p;
    mk_command "w" "Set the watch point" cmd_w;
    mk_command "d" "delete the watch point" cmd_d ].

Definition sdb_set_batch_mode : M unit :=
  fun s => (Val tt, mk_sdb (mach s) true (olds s), []).

(** The scan of [cmd_table] in [sdb_mainloop].  The result says whether
    the main loop goes on ([false]: the handler returned a negative
    status and [sdb_mainloop] returns). *)
Fixpoint dispatch (cmd : string) (args : option string)
    (tbl : list command) : M bool :=
  match tbl with
  | [] =>
      printf ("Unknown command '" ++ cmd ++ "'" ++ nl);;
      ret true
  | c :: tbl' =>
      if streq cmd (name c) then
        status <- handler c args;;
        ret (negb (status <? 0))
      else dispatch cmd args tbl'
  end.

(** [args] in [sdb_mainloop]: the text that follows the terminator of
    [cmd] in the line [str], or [NULL] when that position is at or
    past [str_end]. *)
Definition arg_tail (str cmd : string) : option string :=
  let str_end := String.length str in
  let args := (strspn str " " + String.length cmd + 1)%nat in
  if (str_end <=? args)%nat then None else Some (drop args str).

(** The body of the loop of [sdb_mainloop] for the line [str], in a build
    without [CONFIG_DEVICE]. *)
Definition loop_body (str : string) : M bool :=
  cmd <- do_strtok (Some str) " ";;
  match cmd with
  | None => ret true
  | Some cmd => dispatch cmd (arg_tail str cmd) cmd_table
  end.

(** The loop of [sdb_mainloop] over the lines that [readline] is going
    to return before it returns [NULL].  The result is the lines left
    unread. *)
Fixpoint sdb_loop (input : list string) : M (list string) :=
  match input with
  | [] => rl_gets None;; ret []
  | str :: rest =>
      rl_gets (Some str);;
      go_on <- loop_body str;;
      if go_on then sdb_loop rest else ret rest
  end.

Definition sdb_mainloop (input : list string) : M (list string) :=
  fun s =>
    if is_batch_mode s then (cmd_c None;; ret input) s
    else sdb_loop input s.

End Monitor.

(** The calls a run made, by kind. *)
Definition reads (t : list event) : list (Z * Z) :=
  flat_map (fun e => match e with VaddrRead a l => [(a, l)] | _ => [] end)
    t.

Definition allocations (t : list event) : list (option string * Z) :=
  flat_map (fun e => match e with NewWp e v => [(e, v)] | _ => [] end) t.

Definition executions (t : list event) : list Z :=
  flat_map (fun e => match e with CpuExec n => [n] | _ => [] end) t.

Definition lines_read (t : list event) : list (option string) :=
  flat_map (fun e => match e with Readline _ l => [l] | _ => [] end) t.

(** The values [i], [i + 1], ... of a loop index, [k] of them. *)
Fixpoint indices (i : Z) (k : nat) : list Z :=
  match k with
  | O => []
  | S k' => i :: indices (i + 1) k'
  end.

(** What one turn of the loop of [cmd_x] is expected to do at index [j]
    from the address [addr]: one read of one byte at [addr + j], and two
    hexadecimal digits and a space printed for it. *)
Definition x_read {N : Nemu} (m : machine) (addr j : Z) : list event :=
  let b := to_uint8 (vaddr_read (to_word (addr + j)) 1 m) in
  [VaddrRead (to_word (addr + j)) 1;
   Printf (String (hex_digit (b / 16))
             (String (hex_digit (b mod 16)) " "))].

Definition has_digit (s : string) : bool :=
  existsb (fun c => match digit_val c with Some _ => true | None => false end)
    (list_ascii_of_string s).

(** The lines handed to [add_history], in order. *)
Definition history (t : list event) : list string :=
  flat_map (fun e => match e with AddHistory l => [l] | _ => [] end) t.

(** The test [*line_read] of [rl_gets]. *)
Definition nonempty (s : string) : bool :=
  match s with
  | EmptyString => false
  | String _ _ => true
  end.

(** A line made of spaces only; the empty line is one. *)
Definition blank (s : string) : bool :=
  forallb (Ascii.eqb " ") (list_ascii_of_string s).

(** [k] spaces. *)
Fixpoint spaces (k : nat) : string :=
  match k with
  | O => EmptyString
  | S k' => String " " (spaces k')
  end.

(** The white space characters of C: space, tab, newline, vertical tab,
    form feed and carriage return. *)
Definition whitespace : string :=
  String " "
    (String (ascii_of_nat 9)
       (String (ascii_of_nat 10)
          (String (ascii_of_nat 11)
             (String (ascii_of_nat 12)
                (String (ascii_of_nat 13) EmptyString))))).

(** The first token of a line in the words of the specification: the
    first token delimited by white space.  The loop of [sdb_mainloop]
    cuts at the space character alone. *)
Definition first_whitespace_token (str : string) : option string :=
  fst (strtok (Some str) whitespace EmptyString).

(** A command word: not empty and free of spaces. *)
Definition is_word (w : string) : bool :=
  nonempty w
  && forallb (fun c => negb (Ascii.eqb c " ")) (list_ascii_of_string w).

(** The texts handed to [expr], in order. *)
Definition evaluations (t : list event) : list (option string) :=
  flat_map (fun e => match e with Expr x => [x] | _ => [] end) t.

(** The numbers handed to [delete_watchpoint], in order. *)
Definition deletions (t : list event) : list Z :=
  flat_map (fun e => match e with DeleteWatchpoint n => [n] | _ => [] end)
    t.

(** A computation that leaves [is_batch_mode] as it is and calls neither
    [readline] nor [add_history]. *)
Definition quiet {N : Nemu} {A : Type} (m : M A) : Prop :=
  forall s : sdb,
    is_batch_mode (snd (fst (m s))) = is_batch_mode s
    /\ lines_read (snd (m s)) = []
    /\ history (snd (m s)) = [].

End Sdb.

(** ** A small machine to run the monitor on *)

Module Toy.

Import CInt Libc Sdb.

(** A program counter that stops at [halt], a quit flag and a pool of at
    most [NR_WP] watchpoints (number, expression, value). *)
Record state : Type := mk_state {
  pc : Z;
  quit : bool;
  pool : list (Z * option string * Z)
}.

Definition halt : Z := 100.
Definition NR_WP : Z := 32.

Definition toy_cpu_exec (n : Z) (m : state) : state :=
  mk_state (if n <? 0 then halt else Z.min halt (pc m + n))
    (quit m) (pool m).

(** A few expressions evaluate; the others fail. *)
Definition toy_expr (e : option string) (success : bool) (m : state)
  : Z * bool :=
  match e with
  | Some "1+1" => (2, true)
  | Some "0x0" => (0, true)
  | Some "0" => (0, true)
  | Some "-1" => (-1, true)
  | Some "$pc" => (pc m, true)
  | _ => (0, false)
  end.

Definition toy_vaddr_read (addr len : Z) (m : state) : Z :=
  (addr + 170) mod 2 ^ (8 * len).

Definition toy_new_wp (e : option string) (val : Z) (m : state)
  : option Z * state :=
  let NO := Z.of_nat (List.length (pool m)) in
  if NO <? NR_WP then
    (Some NO, mk_state (pc m) (quit m) (pool m ++ [(NO, e, val)]))
  else (None, m).

Definition toy_delete_watchpoint (n : Z) (m : state) : Z * state :=
  if existsb (fun w => fst (fst w) =? n) (pool m) then
    (1, mk_state (pc m) (quit m)
          (filter (fun w => negb (fst (fst w) =? n)) (pool m)))
  else (0, m).

Definition toy_nemu_quit (m : state) : state :=
  mk_state (pc m) true (pool m).

Definition nemu : Nemu :=
  Build_Nemu state toy_cpu_exec toy_expr toy_vaddr_read toy_new_wp
    toy_delete_watchpoint toy_nemu_quit.

Definition boot : state := mk_state 0 false [].

(** The monitor at start-up, in interactive mode. *)
Definition init : sdb (N := nemu) :=
  mk_sdb (N := nemu) boot false EmptyString.

(** The monitor at start-up, after [sdb_set_batch_mode]. *)
Definition init_batch : sdb (N := nemu) :=
  mk_sdb (N := nemu) boot true EmptyString.

(** A machine whose pool holds [NR_WP] watchpoints, numbered from 0. *)
Definition full_pool : list (Z * option string * Z) :=
  map (fun i => (Z.of_nat i, Some "0", 0)) (seq 0 (Z.to_nat NR_WP)).

Definition full : state := mk_state 0 false full_pool.

Definition init_full : sdb (N := nemu) :=
  mk_sdb (N := nemu) full false EmptyString.

End Toy.

(** * Properties *)

Import CInt Libc Sdb.

(** ** Integer conversions *)

Lemma to_int_id (v : Z) : INT_MIN <= v <= INT_MAX -> to_int v = v.
Proof.
  unfold INT_MIN, INT_MAX, to_int. intros H.
  rewrite Z.mod_small by lia. lia.
Qed.

Lemma to_int_range (v : Z) : INT_MIN <= to_int v <= INT_MAX.
Proof.
  unfold INT_MIN, INT_MAX, to_int.
  pose proof (Z.mod_pos_bound (v + 2 ^ 31) (2 ^ 32) ltac:(lia)). lia.
Qed.

Lemma to_word_range (v : Z) : 0 <= to_word v < 2 ^ 32.
Proof. unfold to_word. apply Z.mod_pos_bound. lia. Qed.

Lemma to_uint8_range (v : Z) : 0 <= to_uint8 v < 256.
Proof. unfold to_uint8. apply Z.mod_pos_bound. lia. Qed.

(** The [sword_t] made from a [word_t] is the signed reading of the same
    32 bits: it is congruent to the word modulo [2 ^ 32]. *)
Lemma to_int_signed (v : Z) : (to_int (to_word v) - v) mod 2 ^ 32 = 0.
Proof.
  unfold to_int, to_word.
  pose proof (Z.mod_eq v (2 ^ 32) ltac:(lia)) as H1.
  pose proof (Z.mod_eq (v mod 2 ^ 32 + 2 ^ 31) (2 ^ 32) ltac:(lia)) as H2.
  set (q1 := v / 2 ^ 32) in *.
  set (q2 := (v mod 2 ^ 32 + 2 ^ 31) / 2 ^ 32) in *.
  replace ((v mod 2 ^ 32 + 2 ^ 31) mod 2 ^ 32 - 2 ^ 31 - v)
    with ((- (q1 + q2)) * 2 ^ 32) by lia.
  apply Z.mod_mul. lia.
Qed.

(** ** Strings *)

Lemma drop_nil (k : nat) : drop k EmptyString = EmptyString.
Proof. destruct k; reflexivity. Qed.

Lemma drop_drop (a b : nat) (s : string) :
  drop b (drop a s) = drop (a + b) s.
Proof.
  revert s; induction a as [|a IH]; intros s; simpl.
  - reflexivity.
  - destruct s as [|c s]; [apply drop_nil | apply IH].
Qed.

Lemma drop_length (k : nat) (s : string) :
  String.length (drop k s) = (String.length s - k)%nat.
Proof.
  revert s; induction k as [|k IH]; intros [|c s]; simpl; auto.
Qed.

Lemma length_zero (s : string) : String.length s = O -> s = EmptyString.
Proof. destruct s; [reflexivity | discriminate]. Qed.

Lemma strcspn_le (s d : string) : (strcspn s d <= String.length s)%nat.
Proof.
  induction s as [|c s IH]; simpl; [lia|].
  destruct (is_in c d); lia.
Qed.

Lemma substring_length (k : nat) (s : string) :
  (k <= String.length s)%nat -> String.length (substring 0 k s) = k.
Proof.
  revert s; induction k as [|k IH]; intros [|c s]; simpl; intros H;
    try reflexivity; try lia.
  rewrite IH by lia; reflexivity.
Qed.

(** ** [printf] *)

(** A [uint8_t] comes out of [%02x] as exactly two hexadecimal digits. *)
Lemma fmt_02x_byte (b : Z) :
  0 <= b < 256 ->
  fmt_02x b = String (hex_digit (b / 16)) (String (hex_digit (b mod 16))
                EmptyString).
Proof.
  intros Hb. unfold fmt_02x, fmt_x. cbn [digits].
  destruct (Z.eqb_spec (b / 16) 0) as [E|E].
  - rewrite E. reflexivity.
  - assert (H : b / 16 / 16 = 0).
    { rewrite Z.div_div by lia. apply Z.div_small. lia. }
    assert (H' : (b / 16) mod 16 = b / 16).
    { apply Z.mod_small. split.
      - apply Z.div_pos; lia.
      - apply Z.div_lt_upper_bound; lia. }
    rewrite H, H'. reflexivity.
Qed.

(** ** [%d] read back *)

Lemma dec_digit_cases (d : Z) (P : ascii -> Prop) :
  0 <= d < 10 ->
  P "0"%char -> P "1"%char -> P "2"%char -> P "3"%char -> P "4"%char ->
  P "5"%char -> P "6"%char -> P "7"%char -> P "8"%char -> P "9"%char ->
  P (dec_digit d).
Proof.
  intros Hd.
  assert (E : d = 0 \/ d = 1 \/ d = 2 \/ d = 3 \/ d = 4 \/ d = 5
              \/ d = 6 \/ d = 7 \/ d = 8 \/ d = 9) by lia.
  intuition (subst d; assumption).
Qed.

Lemma digit_val_dec_digit (d : Z) :
  0 <= d < 10 -> digit_val (dec_digit d) = Some d.
Proof.
  intros Hd.
  assert (E : d = 0 \/ d = 1 \/ d = 2 \/ d = 3 \/ d = 4 \/ d = 5
              \/ d = 6 \/ d = 7 \/ d = 8 \/ d = 9) by lia.
  intuition (subst d; reflexivity).
Qed.

(** Reading the digits written for [v] multiplies what was read so far by
    a power of ten and adds [v]. *)
Lemma read_digits_digits (fuel : nat) :
  forall (v : Z) (rest : string),
    fuel <> O ->
    0 <= v < 10 ^ Z.of_nat fuel ->
    exists k : Z,
      0 <= k /\
      forall (a : Z) (seen : bool),
        read_digits (digits fuel 10 dec_digit v rest) a seen
        = read_digits rest (a * 10 ^ k + v) true.
Proof.
  induction fuel as [|f IH]; intros v rest Hf Hv.
  - contradiction.
  - cbn [digits].
    assert (Hm : 0 <= v mod 10 < 10) by (apply Z.mod_pos_bound; lia).
    pose proof (Z.div_mod v 10 ltac:(lia)) as Hdm.
    destruct (Z.eqb_spec (v / 10) 0) as [E|E].
    + exists 1. split; [lia|]. intros a seen. cbn [read_digits].
      rewrite digit_val_dec_digit by exact Hm. f_equal.
      rewrite Z.pow_1_r. lia.
    + assert (Hq : 0 <= v / 10 < 10 ^ Z.of_nat f).
      { split; [apply Z.div_pos; lia|].
        apply Z.div_lt_upper_bound; [lia|].
        rewrite Nat2Z.inj_succ, Z.pow_succ_r in Hv by lia. lia. }
      assert (Hf' : f <> O).
      { intros ->. cbn in Hq. apply E. lia. }
      destruct (IH (v / 10) (String (dec_digit (v mod 10)) rest) Hf' Hq)
        as (k & Hk & R).
      exists (k + 1). split; [lia|]. intros a seen. rewrite R.
      cbn [read_digits]. rewrite digit_val_dec_digit by exact Hm.
      f_equal. rewrite Z.pow_add_r, Z.pow_1_r by lia. lia.
Qed.

(** The text written for a number starts with a digit. *)
Lemma digits_head (fuel : nat) :
  forall (v : Z) (rest : string),
    0 <= v ->
    exists (d : Z) (s' : string),
      0 <= d < 10 /\
      digits (S fuel) 10 dec_digit v rest = String (dec_digit d) s'.
Proof.
  induction fuel as [|f IH]; intros v rest Hv;
    assert (Hm : 0 <= v mod 10 < 10) by (apply Z.mod_pos_bound; lia).
  - cbn [digits]. destruct (v / 10 =? 0); eauto.
  - change (digits (S (S f)) 10 dec_digit v rest)
      with (let acc' := String (dec_digit (v mod 10)) rest in
            if v / 10 =? 0 then acc'
            else digits (S f) 10 dec_digit (v / 10) acc').
    cbv zeta. destruct (v / 10 =? 0); [eauto|].
    apply IH. apply Z.div_pos; lia.
Qed.

Lemma sscanf_d_digit_head (d : Z) (s' : string) :
  0 <= d < 10 ->
  sscanf_d (String (dec_digit d) s')
  = match read_digits (String (dec_digit d) s') 0 false with
    | Some v => Some (to_int (clamp_long v))
    | None => None
    end.
Proof.
  intros Hd.
  apply (dec_digit_cases d
           (fun c => sscanf_d (String c s')
                     = match read_digits (String c s') 0 false with
                       | Some v => Some (to_int (clamp_long v))
                       | None => None
                       end) Hd);
    reflexivity.
Qed.

Lemma sscanf_d_minus (s : string) :
  sscanf_d (String "-" s)
  = match read_digits s 0 false with
    | Some v => Some (to_int (clamp_long (- v)))
    | None => None
    end.
Proof. reflexivity. Qed.

Lemma sscanf_d_digits (v : Z) :
  0 <= v < 10 ^ 10 ->
  sscanf_d (digits 10 10 dec_digit v EmptyString)
  = Some (to_int (clamp_long v))
  /\ sscanf_d (String "-" (digits 10 10 dec_digit v EmptyString))
     = Some (to_int (clamp_long (- v))).
Proof.
  intros Hv.
  destruct (digits_head 9 v EmptyString ltac:(lia)) as (d & s' & Hd & E).
  destruct (read_digits_digits 10 v EmptyString ltac:(discriminate) Hv)
    as (k & Hk & R).
  specialize (R 0 false). cbn [read_digits] in R.
  replace (0 * 10 ^ k + v) with v in R by lia.
  split.
  - rewrite E, (sscanf_d_digit_head d s' Hd), <- E, R. reflexivity.
  - rewrite sscanf_d_minus, R. reflexivity.
Qed.

(** What [%d] prints for an [int], [%d] reads back. *)
Lemma sscanf_d_fmt_d (v : Z) :
  INT_MIN <= v <= INT_MAX -> sscanf_d (fmt_d v) = Some v.
Proof.
  unfold INT_MIN, INT_MAX. intros Hv. unfold fmt_d.
  assert (C : clamp_long v = v).
  { unfold clamp_long, LONG_MIN, LONG_MAX. lia. }
  assert (I : to_int v = v).
  { apply to_int_id. unfold INT_MIN, INT_MAX. lia. }
  destruct (Z.ltb_spec v 0) as [Hneg|Hpos].
  - destruct (sscanf_d_digits (- v) ltac:(lia)) as [_ R].
    rewrite R, Z.opp_involutive, C, I. reflexivity.
  - destruct (sscanf_d_digits v ltac:(lia)) as [R _].
    rewrite R, C, I. reflexivity.
Qed.

(** ** The monad *)

Section Properties.

Context {N : Nemu}.

(** ** [si] *)

Lemma cmd_si_steps (a : string) (s : sdb) :
  cmd_si (Some a) s
  = (Val 0, set_mach (cpu_exec (scan_int a) (mach s)) s,
     [CpuExec (scan_int a)]).
Proof. reflexivity. Qed.

(** C6: [si] without an argument makes one call of the execution engine,
    for exactly one step; [si] with an argument that [%d] does not match,
    such as [abc], makes one call for exactly zero steps, returns status
    0 and the main loop goes on.  This holds for the handler and for the
    lines [si] and [si abc] given to the main loop's body. *)
Theorem si_default_and_non_numeric :
  (forall s : sdb,
      cmd_si None s
      = (Val 0, set_mach (cpu_exec 1 (mach s)) s, [CpuExec 1]))
  /\ (forall (a : string) (s : sdb),
      sscanf_d a = None ->
      cmd_si (Some a) s
      = (Val 0, set_mach (cpu_exec 0 (mach s)) s, [CpuExec 0]))
  /\ sscanf_d "abc" = None
  /\ (forall s : sdb,
      loop_body "si" s
      = (Val true,
         set_mach (cpu_exec 1 (mach s)) (set_olds EmptyString s),
         [CpuExec 1]))
  /\ (forall s : sdb,
      loop_body "si abc" s
      = (Val true,
         set_mach (cpu_exec 0 (mach s)) (set_olds "abc" s),
         [CpuExec 0])).
Proof.
  repeat split.
  intros a s H. rewrite cmd_si_steps. unfold scan_int. rewrite H.
  reflexivity.
Qed.

(** C10: a negative count [n] read from the argument of [si] reaches
    [cpu_exec] as it is, in one call.  When the engine treats every
    negative count as "run until the machine stops", the machine is left
    as the command [c] leaves it. *)
Theorem si_negative_runs_unbounded (a : string) (n : Z) (s : sdb) :
  sscanf_d a = Some n ->
  n < 0 ->
  cmd_si (Some a) s
  = (Val 0, set_mach (cpu_exec n (mach s)) s, [CpuExec n])
  /\ ((forall (k : Z) (m : machine), k < 0 -> cpu_exec k m = cpu_exec (-1) m) ->
      cmd_si (Some a) s
      = (let '(r, s', _) := cmd_c None s in (r, s', [CpuExec n]))).
Proof.
  intros Hn Hneg. rewrite cmd_si_steps. unfold scan_int. rewrite Hn.
  split; [reflexivity|].
  intros Hc. cbn. rewrite (Hc n (mach s) Hneg). reflexivity.
Qed.

(** ** Batch mode *)

(** C9: in batch mode [sdb_mainloop] makes exactly one call of the
    execution engine, [cpu_exec(-1)], and returns; it calls [readline]
    not once and every line of the input is left unread. *)
Theorem batch_mode_runs_once (input : list string) (s : sdb) :
  is_batch_mode s = true ->
  sdb_mainloop input s
  = (Val input, set_mach (cpu_exec (-1) (mach s)) s, [CpuExec (-1)])
  /\ executions (snd (sdb_mainloop input s)) = [-1]
  /\ lines_read (snd (sdb_mainloop input s)) = [].
Proof.
  intros H. unfold sdb_mainloop. rewrite H. repeat split.
Qed.

(** The same from any state, once [sdb_set_batch_mode] has been called. *)
Lemma batch_mode_after_set (input : list string) (s : sdb) :
  bind sdb_set_batch_mode (fun _ => sdb_mainloop input) s
  = (Val input, mk_sdb (cpu_exec (-1) (mach s)) true (olds s),
     [CpuExec (-1)]).
Proof. reflexivity. Qed.

(** ** [p] *)

(** C7: when the evaluator reports success, [p] prints [val = ] followed
    by the decimal form of the value read as a signed 32-bit number (a
    value of 2 gives [val = 2], the word [0xffffffff] gives [val = -1]);
    when the evaluator reports failure, [p] prints the error message
    alone, and that message holds no digit.  Either way the status is 0
    and the machine is unchanged. *)
Theorem p_prints_signed_value_or_error (args : option string) (s : sdb)
    (v : Z) :
  (expr args true (mach s) = (v, true) ->
   cmd_p args s
   = (Val 0, s,
      [Expr args;
       Printf ("val = " ++ fmt_d (to_int (to_word v)) ++ nl)]))
  /\ (expr args true (mach s) = (v, false) ->
      cmd_p args s
      = (Val 0, s,
         [Expr args;
          Printf ("expr false, please correctly input again!" ++ nl)]))
  /\ INT_MIN <= to_int (to_word v) <= INT_MAX
  /\ (to_int (to_word v) - v) mod 2 ^ 32 = 0
  /\ fmt_d (to_int (to_word 2)) = "2"
  /\ fmt_d (to_int (to_word (2 ^ 32 - 1))) = "-1"
  /\ has_digit ("expr false, please correctly input again!" ++ nl)
     = false.
Proof.
  repeat split.
  - intros H. unfold cmd_p, bind, do_expr. rewrite H. reflexivity.
  - intros H. unfold cmd_p, bind, do_expr. rewrite H. reflexivity.
  - apply to_int_range.
  - apply to_int_range.
  - apply to_int_signed.
Qed.

(** The line [p 1+1] reaches [cmd_p] with the argument [1+1]; with an
    evaluator that gives 2 for it, [val = 2] is printed. *)
Lemma p_one_plus_one (s : sdb) :
  expr (Some "1+1") true (mach s) = (2, true) ->
  loop_body "p 1+1" s
  = (Val true, set_olds "1+1" s,
     [Expr (Some "1+1"); Printf ("val = 2" ++ nl)]).
Proof.
  intros H. unfold loop_body, bind, do_strtok. cbn.
  unfold cmd_p, bind, do_expr. cbn. rewrite H. reflexivity.
Qed.

(** ** [w] *)

(** C3, with the report of the number tied to [new_wp] returning a
    watchpoint: [w] calls [new_wp] exactly when the evaluator reports
    success, and then once, with the argument text it was given and the
    value as a [word_t]; when [new_wp] returns a watchpoint, its number is
    printed and the status is 0.  When the evaluator reports failure,
    [new_wp] is not called, the machine is unchanged and nothing is
    printed. *)
Theorem w_allocates_iff_evaluation_succeeds (args : option string)
    (s : sdb) (v : Z) (ok : bool) :
  expr args true (mach s) = (v, ok) ->
  allocations (snd (cmd_w args s))
  = (if ok then [(args, to_word v)] else [])
  /\ (ok = true ->
      forall (NO : Z) (m : machine),
        new_wp args (to_word v) (mach s) = (Some NO, m) ->
        cmd_w args s
        = (Val 0, set_mach m s,
           [Expr args; NewWp args (to_word v);
            Printf ("watch point " ++ fmt_d NO ++ " set succeed" ++ nl)]))
  /\ (ok = false -> cmd_w args s = (Val 0, s, [Expr args])).
Proof.
  intros H. unfold cmd_w, bind, do_expr, do_new_wp. rewrite H.
  destruct ok; cbn.
  - destruct (new_wp args (to_word v) (mach s)) as [wp m] eqn:E.
    split; [|split; [|discriminate]].
    + destruct wp; reflexivity.
    + intros _ NO m' [= -> ->]. reflexivity.
  - split; [reflexivity|]. split; [discriminate|reflexivity].
Qed.

(** ** [info] *)

Lemma cmd_info_unknown (a : string) (s : sdb) :
  a <> "r" -> a <> "w" ->
  cmd_info (Some a) s = (Val 0, s, [Printf ("Unknow parma" ++ nl)]).
Proof.
  intros Hr Hw. unfold cmd_info, streq.
  apply String.eqb_neq in Hr, Hw. unfold bind. rewrite Hr, Hw.
  reflexivity.
Qed.

(** C4: without an argument, [info] hands the null pointer [args] to
    [strcmp]: the handler prints nothing and does not return a status,
    and the main loop does not reach its next line. *)
Theorem info_without_argument_faults (s : sdb) (rest : list string) :
  cmd_info None s = (Fault, s, [])
  /\ arg_tail "info" "info" = None
  /\ loop_body "info" s = (Fault, set_olds EmptyString s, [])
  /\ sdb_loop ("info" :: rest) s
     = (Fault, set_olds EmptyString s,
        [Readline "(nemu) " (Some "info"); AddHistory "info"]).
Proof. repeat split. Qed.

(** ** [x] *)

Lemma to_word_add (a j : Z) : to_word (to_word a + j) = to_word (a + j).
Proof. unfold to_word. apply Zplus_mod_idemp_l. Qed.

Lemma to_uint8_to_word (v : Z) : to_uint8 (to_word v) = to_uint8 v.
Proof.
  unfold to_uint8, to_word.
  change (2 ^ 32) with (2 ^ 8 * 2 ^ 24).
  rewrite Z.rem_mul_r by lia.
  rewrite (Z.mul_comm (2 ^ 8)), Z.mod_add by lia.
  apply Z.mod_mod. lia.
Qed.

Lemma scan_bytes_run (k : nat) (addr i : Z) (s : sdb) :
  scan_bytes k addr i s
  = (Val tt, s, flat_map (x_read (mach s) addr) (indices i k)).
Proof.
  revert i; induction k as [|k IH]; intros i.
  - reflexivity.
  - cbn [scan_bytes indices flat_map]. unfold bind at 1.
    unfold do_vaddr_read at 1. unfold bind at 1. unfold printf, emit.
    rewrite IH. unfold x_read at 2.
    rewrite to_uint8_to_word, fmt_02x_byte by apply to_uint8_range.
    reflexivity.
Qed.

Lemma reads_x_reads (m : machine) (addr i : Z) (k : nat) :
  reads (flat_map (x_read m addr) (indices i k))
  = map (fun j => (to_word (addr + j), 1)) (indices i k).
Proof.
  revert i; induction k as [|k IH]; intros i; cbn.
  - reflexivity.
  - f_equal. apply IH.
Qed.

Lemma indices_length (i : Z) (k : nat) : List.length (indices i k) = k.
Proof. revert i; induction k; intros i; cbn; auto. Qed.

Lemma reads_app (t u : list event) :
  reads (t ++ u) = (reads t ++ reads u)%list.
Proof. apply flat_map_app. Qed.

Lemma in_int_true (v : Z) : INT_MIN <= v <= INT_MAX -> in_int v = true.
Proof.
  intros H. unfold in_int. apply andb_true_iff. split; apply Z.leb_le; lia.
Qed.

Lemma in_int_false (v : Z) :
  ~ (INT_MIN <= v <= INT_MAX) -> in_int v = false.
Proof.
  intros H. unfold in_int. apply andb_false_iff.
  destruct (Z.leb_spec INT_MIN v); [|left; reflexivity].
  destruct (Z.leb_spec v INT_MAX); [|right; reflexivity].
  exfalso. apply H. lia.
Qed.

(** [cmd_x] with its two tokens, up to the loop: the evaluator is called on
    the second token and its flag is not looked at. *)
Lemma cmd_x_tokens (args : option string) (s : sdb)
    (parma1 parma2 o1 o2 : string) :
  strtok args " " (olds s) = (Some parma1, o1) ->
  strtok None " " o1 = (Some parma2, o2) ->
  cmd_x args s
  = (if in_int (4 * scan_int parma1) then
       (Val 0, set_olds o2 s,
        Expr (Some parma2)
        :: flat_map
             (x_read (mach s) (fst (expr (Some parma2) false (mach s))))
             (indices 0 (Z.to_nat (4 * scan_int parma1)))
           ++ [Printf nl])%list
     else (Fault, set_olds o2 s, [Expr (Some parma2)])).
Proof.
  intros H1 H2. unfold cmd_x, bind at 1, do_strtok at 1. rewrite H1.
  unfold bind at 1, do_strtok at 1. cbn [olds set_olds]. rewrite H2.
  unfold bind at 1, do_expr.
  destruct (expr (Some parma2) false (mach (set_olds o2 (set_olds o1 s))))
    as [v ok] eqn:E.
  cbn [mach set_olds] in E. rewrite E. cbn [fst].
  unfold bind at 1. destruct (in_int (4 * scan_int parma1)).
  - rewrite scan_bytes_run.
    cbn [mach set_olds is_batch_mode olds].
    unfold bind, printf, emit, ret. cbn [app].
    rewrite (flat_map_ext (x_read (mach s) (to_word v))
               (x_read (mach s) v)).
    + reflexivity.
    + intros j. unfold x_read. rewrite to_word_add. reflexivity.
  - reflexivity.
Qed.

(** The same when [4 * n] is an [int]: the loop runs on the value. *)
Lemma cmd_x_run (args : option string) (s : sdb)
    (parma1 parma2 o1 o2 : string) :
  strtok args " " (olds s) = (Some parma1, o1) ->
  strtok None " " o1 = (Some parma2, o2) ->
  INT_MIN <= 4 * scan_int parma1 <= INT_MAX ->
  cmd_x args s
  = (Val 0, set_olds o2 s,
     Expr (Some parma2)
     :: flat_map
          (x_read (mach s) (fst (expr (Some parma2) false (mach s))))
          (indices 0 (Z.to_nat (4 * scan_int parma1)))
        ++ [Printf nl])%list.
Proof.
  intros H1 H2 Hr. rewrite (cmd_x_tokens args s parma1 parma2 o1 o2 H1 H2).
  rewrite (in_int_true _ Hr). reflexivity.
Qed.

(** C5, for counts whose fourfold fits an [int]: with two tokens, a
    count [n] read from the first with [0 < n] and [4 * n <= INT_MAX],
    and an evaluator that succeeds with the address [a] on the second,
    [x] makes exactly [4 * n] reads of one byte each, at [a], [a + 1],
    ... (as [vaddr_t] values), prints each byte as two hexadecimal
    digits and a space right after its read, and ends with a newline.
    The line [x 2 0x0] makes 8 reads. *)
Theorem x_reads_four_bytes_per_count (args : option string) (s : sdb)
    (parma1 parma2 o1 o2 : string) (n a : Z) :
  strtok args " " (olds s) = (Some parma1, o1) ->
  strtok None " " o1 = (Some parma2, o2) ->
  sscanf_d parma1 = Some n ->
  0 < n ->
  4 * n <= INT_MAX ->
  expr (Some parma2) false (mach s) = (a, true) ->
  cmd_x args s
  = (Val 0, set_olds o2 s,
     Expr (Some parma2)
     :: flat_map (x_read (mach s) a) (indices 0 (Z.to_nat (4 * n)))
        ++ [Printf nl])%list
  /\ reads (snd (cmd_x args s))
     = map (fun j => (to_word (a + j), 1)) (indices 0 (Z.to_nat (4 * n)))
  /\ Z.of_nat (List.length (reads (snd (cmd_x args s)))) = 4 * n
  /\ (forall s' : sdb,
      List.length (reads (snd (cmd_x (Some "2 0x0") s'))) = 8%nat).
Proof.
  intros H1 H2 Hn Hpos Hmax He.
  assert (R : cmd_x args s
              = (Val 0, set_olds o2 s,
                 Expr (Some parma2)
                 :: flat_map (x_read (mach s) a)
                      (indices 0 (Z.to_nat (4 * n)))
                    ++ [Printf nl])%list).
  { assert (Hr : INT_MIN <= 4 * scan_int parma1 <= INT_MAX).
    { unfold scan_int. rewrite Hn. unfold INT_MIN, INT_MAX in *. lia. }
    rewrite (cmd_x_run args s parma1 parma2 o1 o2 H1 H2 Hr).
    unfold scan_int. rewrite Hn, He. reflexivity. }
  assert (Q : reads (snd (cmd_x args s))
              = map (fun j => (to_word (a + j), 1))
                  (indices 0 (Z.to_nat (4 * n)))).
  { rewrite R. cbn [snd]. change (reads (?x :: ?l)) with (reads l).
    rewrite reads_app, reads_x_reads. apply app_nil_r. }
  split; [exact R|]. split; [exact Q|]. split.
  - rewrite Q, length_map, indices_length. lia.
  - intros s'.
    rewrite (cmd_x_run (Some "2 0x0") s' "2" "0x0" "0x0" EmptyString
               eq_refl eq_refl ltac:(vm_compute; split; discriminate)).
    cbn [snd]. change (reads (?x :: ?l)) with (reads l).
    rewrite reads_app, reads_x_reads. reflexivity.
Qed.

(** ** [d] *)

Lemma cmd_d_failure (args : option string) (s : sdb) (param o : string)
    (r : Z) (m : machine) :
  strtok args " " (olds s) = (Some param, o) ->
  delete_watchpoint (scan_int param) (mach s) = (r, m) ->
  r <> 1 ->
  cmd_d args s
  = (Val (-1), set_mach m (set_olds o s),
     [DeleteWatchpoint (scan_int param);
      Printf ("delete failed, please input correct number!" ++ nl)]).
Proof.
  intros H1 H2 Hr. unfold cmd_d, bind at 1, do_strtok. rewrite H1.
  unfold bind at 1, do_delete_watchpoint. cbn [mach set_olds]. rewrite H2.
  apply Z.eqb_neq in Hr. rewrite Hr. reflexivity.
Qed.

(** ** The main loop *)

Lemma rl_gets_line (c : ascii) (l : string) (s : sdb) :
  rl_gets (Some (String c l)) s
  = (Val tt, s,
     [Readline "(nemu) " (Some (String c l)); AddHistory (String c l)]).
Proof. reflexivity. Qed.

(** A handler's negative status ends the loop with the rest of the input
    unread; otherwise the loop goes on to the next line. *)
Lemma sdb_loop_step (str : string) (rest : list string) (s s1 : sdb)
    (go_on : bool) (t : list event) :
  loop_body str s = (Val go_on, s1, t) ->
  sdb_loop (str :: rest) s
  = (let '(r, s2, t2) :=
       if go_on then sdb_loop rest s1 else (Val rest, s1, []) in
     (r, s2, snd (rl_gets (Some str) s) ++ t ++ t2)%list).
Proof.
  intros H. cbn [sdb_loop]. unfold bind at 1.
  assert (E : rl_gets (Some str) s
              = (Val tt, s, snd (rl_gets (Some str) s))).
  { destruct str; reflexivity. }
  rewrite E at 1. unfold bind at 1. rewrite H.
  destruct go_on.
  - destruct (sdb_loop rest s1) as [[r s2] t2]. reflexivity.
  - reflexivity.
Qed.

Lemma dispatch_unknown (tbl : list command) (cmd : string)
    (args : option string) (s : sdb) :
  (forall c, In c tbl -> name c <> cmd) ->
  dispatch cmd args tbl s
  = (Val true, s, [Printf ("Unknown command '" ++ cmd ++ "'" ++ nl)]).
Proof.
  induction tbl as [|c tbl IH]; intros H; cbn [dispatch].
  - reflexivity.
  - assert (E : streq cmd (name c) = false).
    { apply String.eqb_neq. intros ->. apply (H c); [left|]; reflexivity. }
    rewrite E. apply IH. intros c' Hc'. apply H. right. exact Hc'.
Qed.

Lemma dispatch_found (tbl : list command) (c : command) (cmd : string)
    (args : option string) (s : sdb) :
  NoDup (map name tbl) ->
  In c tbl ->
  name c = cmd ->
  dispatch cmd args tbl s
  = bind (handler c args) (fun status => ret (negb (status <? 0))) s.
Proof.
  induction tbl as [|c0 tbl IH]; intros Hnd Hin Hname; [destruct Hin|].
  cbn [dispatch]. cbn [map] in Hnd. inversion Hnd as [|x l Hnot Hnd']; subst.
  destruct Hin as [->|Hin].
  - unfold streq. rewrite String.eqb_refl. reflexivity.
  - assert (E : streq (name c) (name c0) = false).
    { apply String.eqb_neq. intros Heq. apply Hnot. rewrite <- Heq.
      apply in_map. exact Hin. }
    rewrite E. apply IH; auto.
Qed.

Lemma cmd_table_columns :
  map (fun c => (name c, description c)) cmd_table = cmd_names.
Proof. reflexivity. Qed.

Lemma cmd_table_names : NoDup (map name cmd_table).
Proof.
  cbn. repeat (constructor; [cbn; intuition discriminate|]). constructor.
Qed.

Lemma strtok_some (arg : option string) (d o0 cmd o : string) :
  strtok arg d o0 = (Some cmd, o) ->
  let s := match arg with Some a => a | None => o0 end in
  let s1 := drop (strspn s d) s in
  cmd = substring 0 (strcspn s1 d) s1 /\ o = drop (S (strcspn s1 d)) s1.
Proof.
  unfold strtok. cbv zeta.
  destruct (drop _ _) as [|c s1']; [discriminate|].
  intros H. split; congruence.
Qed.

(** The argument tail is the text left after the delimiter that ended the
    command, and [NULL] when nothing is left. *)
Lemma arg_tail_rest (str cmd o o0 : string) :
  strtok (Some str) " " o0 = (Some cmd, o) ->
  arg_tail str cmd = (if String.eqb o EmptyString then None else Some o).
Proof.
  intros H. apply strtok_some in H. cbv zeta in H. destruct H as [-> ->].
  unfold arg_tail. cbv zeta.
  set (s1 := drop (strspn str " ") str).
  rewrite substring_length by apply strcspn_le.
  replace (strspn str " " + strcspn s1 " " + 1)%nat
    with (strspn str " " + S (strcspn s1 " "))%nat by lia.
  rewrite <- drop_drop. fold s1.
  pose proof (drop_length (strspn str " " + S (strcspn s1 " ")) str) as L.
  rewrite <- drop_drop in L. fold s1 in L.
  destruct (Nat.leb_spec (String.length str)
              (strspn str " " + S (strcspn s1 " "))) as [Hle|Hlt].
  - rewrite (length_zero (drop (S (strcspn s1 " ")) s1)) by lia.
    reflexivity.
  - destruct (drop (S (strcspn s1 " ")) s1) as [|c' r] eqn:Ed.
    + cbn in L. lia.
    + reflexivity.
Qed.

Lemma loop_body_dispatch (str cmd o : string) (s : sdb) :
  strtok (Some str) " " (olds s) = (Some cmd, o) ->
  loop_body str s
  = dispatch cmd (arg_tail str cmd) cmd_table (set_olds o s).
Proof.
  intros H. unfold loop_body, bind, do_strtok. rewrite H.
  destruct (dispatch cmd (arg_tail str cmd) cmd_table (set_olds o s))
    as [[r s2] t2]. reflexivity.
Qed.

Lemma loop_body_found (str cmd o : string) (s : sdb) (c : command) :
  strtok (Some str) " " (olds s) = (Some cmd, o) ->
  In c cmd_table ->
  name c = cmd ->
  loop_body str s
  = bind (handler c (arg_tail str cmd))
      (fun status => ret (negb (status <? 0))) (set_olds o s).
Proof.
  intros H Hin Hname. rewrite (loop_body_dispatch str cmd o s H).
  apply dispatch_found; auto using cmd_table_names.
Qed.

(** C8, with tokens cut at the space character alone (a tab does not end
    a token): take a line whose first token, cut at spaces, is [cmd].
    When no
    entry of [cmd_table] has the name [cmd], the loop prints [Unknown
    command 'cmd'] and goes on with the next line.  When the entry [c]
    has the name [cmd], the loop runs the handler of [c], and no other,
    on the argument tail, and goes on exactly when its status is not
    negative.  The argument tail is the text after the delimiter that
    ends [cmd], or [NULL] when that is empty; the names of the table are
    pairwise different. *)
Theorem mainloop_dispatches_by_first_token (str cmd o : string)
    (s : sdb) :
  strtok (Some str) " " (olds s) = (Some cmd, o) ->
  ((forall c, In c cmd_table -> name c <> cmd) ->
   loop_body str s
   = (Val true, set_olds o s,
      [Printf ("Unknown command '" ++ cmd ++ "'" ++ nl)])
   /\ forall rest : list string,
       sdb_loop (str :: rest) s
       = (let '(r, s', t) := sdb_loop rest (set_olds o s) in
          (r, s',
           [Readline "(nemu) " (Some str); AddHistory str;
            Printf ("Unknown command '" ++ cmd ++ "'" ++ nl)] ++ t)%list))
  /\ (forall c, In c cmd_table -> name c = cmd ->
      loop_body str s
      = bind (handler c (arg_tail str cmd))
          (fun status => ret (negb (status <? 0))) (set_olds o s))
  /\ arg_tail str cmd = (if String.eqb o EmptyString then None else Some o)
  /\ NoDup (map name cmd_table).
Proof.
  intros H.
  pose proof (loop_body_dispatch str cmd o s H) as B.
  split; [|split; [|split]].
  - intros Hno.
    assert (U := dispatch_unknown cmd_table cmd (arg_tail str cmd)
                   (set_olds o s) Hno).
    rewrite U in B. split; [exact B|].
    intros rest. rewrite (sdb_loop_step str rest s _ _ _ B).
    destruct str as [|c l]; [discriminate H|].
    destruct (sdb_loop rest (set_olds o s)) as [[r s2] t2]. reflexivity.
  - intros c Hin Hname. apply loop_body_found; assumption.
  - exact (arg_tail_rest str cmd o (olds s) H).
  - exact cmd_table_names.
Qed.

(** A failed deletion ends the loop of every NEMU: the line [d 7], when
    7 names no watchpoint, leaves the lines after it unread. *)
Lemma d_failure_stops_loop (s : sdb) (rest : list string)
    (r : Z) (m : machine) :
  delete_watchpoint 7 (mach s) = (r, m) ->
  r <> 1 ->
  sdb_loop ("d 7" :: rest) s
  = (Val rest, set_mach m (set_olds EmptyString s),
     [Readline "(nemu) " (Some "d 7"); AddHistory "d 7";
      DeleteWatchpoint 7;
      Printf ("delete failed, please input correct number!" ++ nl)]).
Proof.
  intros Hd Hr.
  assert (D : cmd_d (Some "7") (set_olds "7" s)
              = (Val (-1), set_mach m (set_olds EmptyString s),
                 [DeleteWatchpoint 7;
                  Printf ("delete failed, please input correct number!"
                          ++ nl)])).
  { apply (cmd_d_failure (Some "7") (set_olds "7" s) "7" EmptyString r m);
      [reflexivity | exact Hd | exact Hr]. }
  assert (B : loop_body "d 7" s
              = (Val false, set_mach m (set_olds EmptyString s),
                 [DeleteWatchpoint 7;
                  Printf ("delete failed, please input correct number!"
                          ++ nl)])).
  { rewrite (loop_body_found "d 7" "d" "7" s
               (mk_command "d" "delete the watch point" cmd_d)
               eq_refl);
      [|cbn; tauto|reflexivity].
    change (arg_tail "d 7" "d") with (Some "7").
    cbn [handler]. unfold bind. rewrite D. reflexivity. }
  rewrite (sdb_loop_step _ rest _ _ _ _ B). reflexivity.
Qed.

End Properties.

(** ** Runs on the small machine *)

Section Runs.

#[local] Existing Instance Toy.nemu.

(** C1: on a machine without watchpoints the line [d 7] prints the
    failure message, the handler returns -1, and [sdb_mainloop] returns
    at once: the line [help] after it is never read. *)
Theorem d_failure_ends_session :
  cmd_d (Some "7") Toy.init
  = (Val (-1), set_olds EmptyString Toy.init,
     [DeleteWatchpoint 7;
      Printf ("delete failed, please input correct number!" ++ nl)])
  /\ sdb_mainloop ["d 7"; "help"] Toy.init
     = (Val ["help"], set_olds EmptyString Toy.init,
        [Readline "(nemu) " (Some "d 7"); AddHistory "d 7";
         DeleteWatchpoint 7;
         Printf ("delete failed, please input correct number!" ++ nl)]).
Proof. split; reflexivity. Qed.

(** C2: [x 1 ???] with an evaluator that reports failure on [???]: the
    handler prints no error; it reads the four bytes at the value the
    evaluator returned and prints them.  In every NEMU the handler makes
    these four reads, whatever the evaluator reports. *)
Theorem x_reads_despite_failed_evaluation :
  snd (expr (Some "???") false Toy.boot) = false
  /\ cmd_x (Some "1 ???") Toy.init
     = (Val 0, Toy.init,
        [Expr (Some "???");
         VaddrRead 0 1; Printf "aa "; VaddrRead 1 1; Printf "ab ";
         VaddrRead 2 1; Printf "ac "; VaddrRead 3 1; Printf "ad ";
         Printf nl])
  /\ (forall (N : Nemu) (s : @sdb N),
      List.length (reads (snd (@cmd_x N (Some "1 ???") s))) = 4%nat).
Proof.
  split; [reflexivity|]. split; [reflexivity|].
  intros N s.
  rewrite (@cmd_x_run N (Some "1 ???") s "1" "???" "???" EmptyString
             eq_refl eq_refl ltac:(vm_compute; split; discriminate)).
  cbn [snd]. change (reads (?x :: ?l)) with (reads l).
  rewrite reads_app, reads_x_reads. reflexivity.
Qed.

(** C5 as stated fails for a count whose fourfold does not fit an [int]:
    [x 536870912 0] has a positive count and an address that evaluates,
    its loop bound overflows, and it does not make [4 * 536870912]
    reads. *)
Lemma x_large_count_reads_nothing :
  ~ (forall (args : option string) (s : sdb)
       (parma1 parma2 o1 o2 : string) (n a : Z),
        strtok args " " (olds s) = (Some parma1, o1) ->
        strtok None " " o1 = (Some parma2, o2) ->
        sscanf_d parma1 = Some n ->
        0 < n ->
        expr (Some parma2) false (mach s) = (a, true) ->
        Z.of_nat (List.length (reads (snd (cmd_x args s)))) = 4 * n).
Proof.
  intros H.
  specialize (H (Some "536870912 0") Toy.init "536870912" "0" "0"
                EmptyString 536870912 0
                eq_refl eq_refl eq_refl eq_refl eq_refl).
  vm_compute in H. discriminate H.
Qed.

(** C3 as stated fails when the pool is full: the evaluator reports
    success on [1+1], [new_wp] is called and returns a null pointer, no
    watchpoint is added and no number is reported; the handler
    dereferences the null pointer. *)
Lemma w_full_pool_reports_no_id :
  expr (Some "1+1") true Toy.full = (2, true)
  /\ new_wp (Some "1+1") 2 Toy.full = (None, Toy.full)
  /\ cmd_w (Some "1+1") Toy.init_full
     = (Fault, Toy.init_full, [Expr (Some "1+1"); NewWp (Some "1+1") 2]).
Proof. repeat split. Qed.

(** C8 as stated fails for a tab: the first token of the line [si], tab,
    [5], delimited by white space, is the registered verb [si], yet the
    loop takes the whole line as the command, prints [Unknown command]
    and runs no handler. *)
Lemma tab_does_not_end_the_command :
  first_whitespace_token ("si" ++ String (ascii_of_nat 9) "5") = Some "si"
  /\ In "si" (map name cmd_table)
  /\ loop_body ("si" ++ String (ascii_of_nat 9) "5") Toy.init
     = (Val true, Toy.init,
        [Printf ("Unknown command '"
                 ++ ("si" ++ String (ascii_of_nat 9) "5") ++ "'" ++ nl)]).
Proof.
  split; [reflexivity|]. split; [cbn; tauto|reflexivity].
Qed.

Lemma x_reads_four_bytes_per_count_witness :
  cmd_x (Some "2 0x0") Toy.init
  = (Val 0, Toy.init,
     [Expr (Some "0x0");
      VaddrRead 0 1; Printf "aa "; VaddrRead 1 1; Printf "ab ";
      VaddrRead 2 1; Printf "ac "; VaddrRead 3 1; Printf "ad ";
      VaddrRead 4 1; Printf "ae "; VaddrRead 5 1; Printf "af ";
      VaddrRead 6 1; Printf "b0 "; VaddrRead 7 1; Printf "b1 ";
      Printf nl]).
Proof.
  apply (x_reads_four_bytes_per_count (Some "2 0x0") Toy.init
           "2" "0x0" "0x0" EmptyString 2 0);
    try reflexivity.
  vm_compute. discriminate.
Defined.

Lemma si_default_and_non_numeric_witness :
  cmd_si (Some "abc") Toy.init
  = (Val 0, set_mach (Toy.toy_cpu_exec 0 Toy.boot) Toy.init, [CpuExec 0]).
Proof.
  exact (proj1 (proj2 (si_default_and_non_numeric (N := Toy.nemu)))
           "abc" Toy.init eq_refl).
Defined.

Lemma si_negative_runs_unbounded_witness :
  cmd_si (Some "-3") Toy.init
  = (Val 0, set_mach (Toy.toy_cpu_exec (-3) Toy.boot) Toy.init, [CpuExec (-3)])
  /\ cmd_si (Some "-3") Toy.init
     = (Val 0, set_mach (Toy.toy_cpu_exec (-1) Toy.boot) Toy.init,
        [CpuExec (-3)]).
Proof.
  destruct (si_negative_runs_unbounded "-3" (-3) Toy.init
              eq_refl eq_refl) as [H1 H2].
  split; [exact H1|].
  apply H2. intros k m Hk. cbn. unfold Toy.toy_cpu_exec.
  apply Z.ltb_lt in Hk. rewrite Hk. reflexivity.
Defined.

Lemma batch_mode_runs_once_witness :
  sdb_mainloop ["q"] Toy.init_batch
  = (Val ["q"], set_mach (Toy.toy_cpu_exec (-1) Toy.boot) Toy.init_batch,
     [CpuExec (-1)]).
Proof.
  apply (proj1 (batch_mode_runs_once ["q"] Toy.init_batch eq_refl)).
Defined.

Lemma p_prints_signed_value_or_error_witness :
  cmd_p (Some "1+1") Toy.init
  = (Val 0, Toy.init, [Expr (Some "1+1"); Printf ("val = 2" ++ nl)])
  /\ cmd_p (Some "-1") Toy.init
     = (Val 0, Toy.init, [Expr (Some "-1"); Printf ("val = -1" ++ nl)])
  /\ cmd_p (Some "???") Toy.init
     = (Val 0, Toy.init,
        [Expr (Some "???");
         Printf ("expr false, please correctly input again!" ++ nl)]).
Proof.
  split; [|split].
  - apply (proj1 (p_prints_signed_value_or_error (Some "1+1") Toy.init 2)).
    reflexivity.
  - apply (proj1 (p_prints_signed_value_or_error (Some "-1") Toy.init
                    (-1))).
    reflexivity.
  - apply (proj1 (proj2 (p_prints_signed_value_or_error (Some "???")
                           Toy.init 0))).
    reflexivity.
Defined.

Lemma w_allocates_iff_evaluation_succeeds_witness :
  cmd_w (Some "1+1") Toy.init
  = (Val 0,
     set_mach (N := Toy.nemu)
       (Toy.mk_state 0 false [(0, Some "1+1", 2)]) Toy.init,
     [Expr (Some "1+1"); NewWp (Some "1+1") 2;
      Printf ("watch point 0 set succeed" ++ nl)])
  /\ cmd_w (Some "???") Toy.init = (Val 0, Toy.init, [Expr (Some "???")]).
Proof.
  split.
  - exact (proj1 (proj2 (w_allocates_iff_evaluation_succeeds
                           (Some "1+1") Toy.init 2 true eq_refl))
             eq_refl 0 (Toy.mk_state 0 false [(0, Some "1+1", 2)])
             eq_refl).
  - exact (proj2 (proj2 (w_allocates_iff_evaluation_succeeds
                           (Some "???") Toy.init 0 false eq_refl))
             eq_refl).
Defined.

Lemma mainloop_dispatches_by_first_token_witness :
  loop_body "foo bar" Toy.init
  = (Val true, set_olds "bar" Toy.init,
     [Printf ("Unknown command 'foo'" ++ nl)])
  /\ loop_body "si 2" Toy.init
     = (Val true,
        set_mach (Toy.toy_cpu_exec 2 Toy.boot) (set_olds "2" Toy.init),
        [CpuExec 2]).
Proof.
  split.
  - apply (proj1 (mainloop_dispatches_by_first_token "foo bar" "foo" "bar"
                    Toy.init eq_refl)).
    intros c Hc. cbn in Hc.
    repeat (destruct Hc as [<-|Hc]; [discriminate|]). destruct Hc.
  - rewrite (proj1 (proj2 (mainloop_dispatches_by_first_token "si 2" "si"
                             "2" Toy.init eq_refl))
               (mk_command "si" "Step through N instructions" cmd_si)).
    + reflexivity.
    + cbn. tauto.
    + reflexivity.
Defined.

End Runs.

(** * More about the handlers and the loop *)

(** ** What no handler does *)

Section Quiet.

Context {N : Nemu}.

Lemma quiet_ret {A : Type} (a : A) : quiet (ret a).
Proof. intros s. repeat split. Qed.

Lemma quiet_fault {A : Type} : quiet (fault (A := A)).
Proof. intros s. repeat split. Qed.

Lemma quiet_emit (e : event) :
  lines_read [e] = [] -> history [e] = [] -> quiet (emit e).
Proof. intros Hl Hh s. repeat split; assumption. Qed.

Lemma quiet_printf (text : string) : quiet (printf text).
Proof. apply quiet_emit; reflexivity. Qed.

Lemma quiet_bind {A B : Type} (m : M A) (f : A -> M B) :
  quiet m -> (forall a, quiet (f a)) -> quiet (bind m f).
Proof.
  intros Hm Hf s. unfold bind. specialize (Hm s).
  destruct (m s) as [[r s1] t1]. cbn [fst snd] in Hm.
  destruct Hm as (Hb & Hl & Hh). destruct r as [a|].
  - specialize (Hf a s1). destruct (f a s1) as [[r2 s2] t2].
    cbn [fst snd] in *. destruct Hf as (Hb2 & Hl2 & Hh2).
    unfold lines_read, history in *. rewrite !flat_map_app.
    rewrite Hl, Hl2, Hh, Hh2. repeat split. congruence.
  - cbn [fst snd]. auto.
Qed.

Lemma quiet_do_strtok (arg : option string) (delim : string) :
  quiet (do_strtok arg delim).
Proof.
  intros s. unfold do_strtok. destruct (strtok arg delim (olds s)).
  repeat split.
Qed.

Lemma quiet_do_cpu_exec (n : Z) : quiet (do_cpu_exec n).
Proof. intros s. repeat split. Qed.

Lemma quiet_do_expr (e : option string) (success : bool) :
  quiet (do_expr e success).
Proof.
  intros s. unfold do_expr. destruct (expr e success (mach s)).
  repeat split.
Qed.

Lemma quiet_do_vaddr_read (addr len : Z) : quiet (do_vaddr_read addr len).
Proof. intros s. repeat split. Qed.

Lemma quiet_do_new_wp (e : option string) (val : Z) :
  quiet (do_new_wp e val).
Proof.
  intros s. unfold do_new_wp. destruct (new_wp e val (mach s)).
  repeat split.
Qed.

Lemma quiet_do_delete_watchpoint (n : Z) : quiet (do_delete_watchpoint n).
Proof.
  intros s. unfold do_delete_watchpoint.
  destruct (delete_watchpoint n (mach s)). repeat split.
Qed.

Lemma quiet_do_nemu_quit : quiet do_nemu_quit.
Proof. intros s. repeat split. Qed.

Ltac quiet_step :=
  first
    [ apply quiet_ret | apply quiet_fault | apply quiet_printf
    | apply quiet_do_strtok | apply quiet_do_cpu_exec | apply quiet_do_expr
    | apply quiet_do_vaddr_read | apply quiet_do_new_wp
    | apply quiet_do_delete_watchpoint | apply quiet_do_nemu_quit
    | apply quiet_emit; reflexivity
    | apply quiet_bind; [|intros ?]
    | match goal with
      | |- quiet (match ?x with _ => _ end) => destruct x
      end
    | progress cbv zeta ].

Lemma quiet_scan_bytes (k : nat) :
  forall addr i : Z, quiet (scan_bytes k addr i).
Proof.
  induction k as [|k IH]; intros addr i; cbn [scan_bytes].
  - apply quiet_ret.
  - repeat quiet_step. apply IH.
Qed.

Lemma quiet_help_all (tbl : list (string * string)) : quiet (help_all tbl).
Proof.
  induction tbl as [|e tbl IH]; cbn [help_all].
  - apply quiet_ret.
  - repeat quiet_step. exact IH.
Qed.

Lemma quiet_help_one (arg : string) (tbl : list (string * string)) :
  quiet (help_one arg tbl).
Proof.
  induction tbl as [|e tbl IH]; cbn [help_one].
  - repeat quiet_step.
  - destruct (streq arg (fst e)); [repeat quiet_step | exact IH].
Qed.

Lemma quiet_handlers :
  Forall (fun c => forall args, quiet (handler c args)) cmd_table.
Proof.
  unfold cmd_table. repeat apply Forall_cons; try apply Forall_nil;
    cbn [handler]; intros args.
  - unfold cmd_help. apply quiet_bind; [apply quiet_do_strtok|].
    intros [arg|].
    + apply quiet_help_one.
    + apply quiet_bind; [apply quiet_help_all | intros; apply quiet_ret].
  - unfold cmd_c. repeat quiet_step.
  - unfold cmd_q. repeat quiet_step.
  - unfold cmd_si. repeat quiet_step.
  - unfold cmd_info. repeat quiet_step.
  - unfold cmd_x. repeat quiet_step. apply quiet_scan_bytes.
  - unfold cmd_p. repeat quiet_step.
  - unfold cmd_w. repeat quiet_step.
  - unfold cmd_d. repeat quiet_step.
Qed.

Lemma quiet_dispatch (cmd : string) (args : option string)
    (tbl : list command) :
  Forall (fun c => forall args, quiet (handler c args)) tbl ->
  quiet (dispatch cmd args tbl).
Proof.
  induction 1 as [|c tbl Hc _ IH]; cbn [dispatch].
  - repeat quiet_step.
  - destruct (streq cmd (name c)); [|exact IH].
    apply quiet_bind; [apply Hc | intros; apply quiet_ret].
Qed.

Lemma quiet_loop_body (str : string) : quiet (loop_body str).
Proof.
  unfold loop_body. apply quiet_bind; [apply quiet_do_strtok|].
  intros [cmd|]; [|apply quiet_ret].
  apply quiet_dispatch, quiet_handlers.
Qed.

End Quiet.

(** ** How a handler can end *)

Section Outcomes.

Context {N : Nemu}.

Lemma help_all_run (tbl : list (string * string)) (s : sdb) :
  help_all tbl s = (Val tt, s, map (fun e => Printf (help_line e)) tbl).
Proof.
  induction tbl as [|e tbl IH]; cbn [help_all map].
  - reflexivity.
  - unfold bind at 1. unfold printf, emit. rewrite IH. reflexivity.
Qed.








(** ** The loop and its input *)

Lemma sdb_loop_cons (str : string) (rest : list string) (s : sdb) :
  sdb_loop (str :: rest) s
  = (let rl := snd (rl_gets (Some str) s) in
     match loop_body str s with
     | (Val true, s1, t) =>
         let '(r, s2, t2) := sdb_loop rest s1 in (r, s2, rl ++ t ++ t2)
     | (Val false, s1, t) => (Val rest, s1, rl ++ t ++ [])
     | (Fault, s1, t) => (Fault, s1, rl ++ t)
     end)%list.
Proof.
  cbn [sdb_loop]. unfold bind at 1.
  assert (E : rl_gets (Some str) s
              = (Val tt, s, snd (rl_gets (Some str) s))).
  { destruct str; reflexivity. }
  rewrite E at 1. unfold bind at 1. cbv zeta.
  destruct (loop_body str s) as [[[[|]|] s1] t1]; try reflexivity.
  destruct (sdb_loop rest s1) as [[r s2] t2]. reflexivity.
Qed.

Lemma rl_gets_calls (str : string) (s : sdb) :
  lines_read (snd (rl_gets (Some str) s)) = [Some str]
  /\ history (snd (rl_gets (Some str) s))
     = (if nonempty str then [str] else []).
Proof. destruct str; split; reflexivity. Qed.

Lemma lines_read_app (t u : list event) :
  lines_read (t ++ u) = (lines_read t ++ lines_read u)%list.
Proof. apply flat_map_app. Qed.

Lemma history_app (t u : list event) :
  history (t ++ u) = (history t ++ history u)%list.
Proof. apply flat_map_app. Qed.

(** X2: the loop of [sdb_mainloop] calls [readline] once for each line
    it takes, in the order of the input, and not again after it stops.
    Either it takes every line and then meets the end of the input, or it
    stops after some line [k] (a negative status or undefined behaviour)
    and leaves exactly the lines after it unread.  [add_history] gets the
    non-empty lines taken, in order, and nothing else. *)
Theorem mainloop_reads_lines_in_order (input : list string) (s : sdb) :
  let r := fst (fst (sdb_loop input s)) in
  let t := snd (sdb_loop input s) in
  (r = Val []
   /\ lines_read t = (map Some input ++ [None])%list
   /\ history t = filter nonempty input)
  \/ exists k : nat,
      (1 <= k <= List.length input)%nat
      /\ (r = Fault \/ r = Val (skipn k input))
      /\ lines_read t = map Some (firstn k input)
      /\ history t = filter nonempty (firstn k input).
Proof.
  cbv zeta. revert s. induction input as [|str rest IH]; intros s.
  - left. repeat split.
  - rewrite sdb_loop_cons. cbv zeta.
    destruct (rl_gets_calls str s) as [Rl Rh].
    destruct (quiet_loop_body str s) as (_ & Ql & Qh).
    destruct (loop_body str s) as [[[[|]|] s1] t1]; cbn [fst snd] in Ql, Qh.
    + specialize (IH s1).
      destruct (sdb_loop rest s1) as [[r s2] t2]. cbn [fst snd] in *.
      rewrite !lines_read_app, !history_app, Rl, Rh, Ql, Qh.
      cbn [app map filter].
      destruct IH as [(-> & Hl & Hh) | (k & Hk & Hr & Hl & Hh)].
      * left. rewrite Hl, Hh. repeat split.
        destruct (nonempty str); reflexivity.
      * right. exists (S k). cbn [firstn skipn map filter List.length].
        rewrite Hl, Hh. repeat split; try lia; try assumption.
        destruct (nonempty str); reflexivity.
    + right. exists 1%nat. cbn [fst snd firstn skipn map filter List.length].
      rewrite !lines_read_app, !history_app, Rl, Rh, Ql, Qh.
      repeat split; try lia; auto.
      destruct (nonempty str); reflexivity.
    + right. exists 1%nat. cbn [fst snd firstn skipn map filter List.length].
      rewrite !lines_read_app, !history_app, Rl, Rh, Ql, Qh.
      repeat split; try lia; auto.
      destruct (nonempty str); reflexivity.
Qed.

Lemma sdb_loop_keeps_mode (input : list string) :
  forall s : sdb,
    is_batch_mode (snd (fst (sdb_loop input s))) = is_batch_mode s.
Proof.
  induction input as [|str rest IH]; intros s.
  - reflexivity.
  - rewrite sdb_loop_cons. cbv zeta.
    destruct (quiet_loop_body str s) as (Qb & _ & _).
    destruct (loop_body str s) as [[[[|]|] s1] t1]; cbn [fst snd] in Qb;
      try exact Qb.
    specialize (IH s1). destruct (sdb_loop rest s1) as [[r s2] t2].
    cbn [fst snd] in *. congruence.
Qed.

(** X3: [sdb_mainloop] leaves [is_batch_mode] as it found it, whatever
    the input: no command changes the mode, and a second call runs in the
    mode of the first. *)
Theorem mainloop_keeps_mode (input : list string) (s : sdb) :
  is_batch_mode (snd (fst (sdb_mainloop input s))) = is_batch_mode s.
Proof.
  unfold sdb_mainloop. destruct (is_batch_mode s) eqn:E.
  - cbn. exact E.
  - rewrite sdb_loop_keeps_mode. exact E.
Qed.

End Outcomes.

(** ** Lines, command words and argument tails *)

Lemma is_in_space (c : ascii) : is_in c " " = Ascii.eqb c " ".
Proof. unfold is_in. cbn. apply orb_false_r. Qed.

Lemma substring_drop (k : nat) (s : string) :
  s = (substring 0 k s ++ drop k s)%string.
Proof.
  revert s; induction k as [|k IH]; intros [|c s]; cbn; try reflexivity.
  f_equal. apply IH.
Qed.

Lemma strspn_prefix (s : string) :
  substring 0 (strspn s " ") s = spaces (strspn s " ").
Proof.
  induction s as [|c s IH]; cbn [strspn]; [reflexivity|].
  rewrite is_in_space. destruct (Ascii.eqb_spec c " ") as [->|_].
  - cbn. f_equal. exact IH.
  - reflexivity.
Qed.

Lemma strspn_stop (s : string) (c : ascii) (s' : string) :
  drop (strspn s " ") s = String c s' -> Ascii.eqb c " " = false.
Proof.
  induction s as [|c0 s IH]; cbn [strspn]; [discriminate|].
  rewrite is_in_space. destruct (Ascii.eqb c0 " ") eqn:E; cbn [drop].
  - exact IH.
  - intros [= <- _]. exact E.
Qed.

Lemma strcspn_stop (s : string) :
  drop (strcspn s " ") s = EmptyString
  \/ drop (strcspn s " ") s = String " " (drop (S (strcspn s " ")) s).
Proof.
  induction s as [|c s IH]; cbn [strcspn]; [left; reflexivity|].
  rewrite is_in_space. destruct (Ascii.eqb_spec c " ") as [->|_].
  - right. reflexivity.
  - exact IH.
Qed.

Lemma strcspn_token (s : string) :
  forallb (fun c => negb (Ascii.eqb c " "))
    (list_ascii_of_string (substring 0 (strcspn s " ") s)) = true.
Proof.
  induction s as [|c s IH]; cbn [strcspn]; [reflexivity|].
  rewrite is_in_space. destruct (Ascii.eqb c " ") eqn:E.
  - reflexivity.
  - cbn. rewrite E. exact IH.
Qed.

Lemma append_assoc (a b c : string) :
  ((a ++ b) ++ c = a ++ (b ++ c))%string.
Proof. induction a as [|x a IH]; cbn; [|rewrite IH]; reflexivity. Qed.

Lemma strtok_token_is_word (str cmd o o0 : string) :
  strtok (Some str) " " o0 = (Some cmd, o) -> is_word cmd = true.
Proof.
  unfold strtok. intros H.
  destruct (drop (strspn str " ") str) as [|c s1'] eqn:E1; [discriminate|].
  pose proof (strspn_stop str c s1' E1) as Hc.
  set (s1 := String c s1') in *.
  assert (Hcmd : cmd = substring 0 (strcspn s1 " ") s1) by congruence.
  rewrite Hcmd. unfold is_word. rewrite strcspn_token, andb_true_r.
  unfold s1. cbn [strcspn]. rewrite is_in_space, Hc. reflexivity.
Qed.

(** X4: what the main loop makes of a line that holds a command: the
    command is a non-empty word without a space, and the line is some
    spaces, the command, and then either nothing or a single space (the
    handler gets [NULL]), or a space and the non-empty text that the
    handler gets, unchanged. *)
Theorem line_is_command_and_tail (str cmd o o0 : string) :
  strtok (Some str) " " o0 = (Some cmd, o) ->
  is_word cmd = true
  /\ exists k : nat,
      match arg_tail str cmd with
      | Some tail =>
          tail <> EmptyString
          /\ str = (spaces k ++ cmd ++ String " " tail)%string
      | None =>
          str = (spaces k ++ cmd)%string
          \/ str = (spaces k ++ cmd ++ " ")%string
      end.
Proof.
  intros H. pose proof (arg_tail_rest str cmd o o0 H) as T.
  pose proof (strtok_token_is_word str cmd o o0 H) as W.
  unfold strtok in H.
  pose proof (substring_drop (strspn str " ") str) as D0.
  rewrite strspn_prefix in D0.
  destruct (drop (strspn str " ") str) as [|c s1'] eqn:E1; [discriminate|].
  pose proof (strspn_stop str c s1' E1) as Hc.
  set (s1 := String c s1') in *.
  assert (Hcmd : cmd = substring 0 (strcspn s1 " ") s1) by congruence.
  assert (Ho : o = drop (S (strcspn s1 " ")) s1) by congruence.
  clear H. split; [exact W|].
  exists (strspn str " ").
  pose proof (substring_drop (strcspn s1 " ") s1) as D1.
  rewrite <- Hcmd in D1. rewrite T.
  destruct (strcspn_stop s1) as [S0|S1].
  - assert (o = EmptyString) as ->.
    { rewrite Ho. change (S ?n) with (1 + n)%nat.
      rewrite Nat.add_comm, <- drop_drop, S0. reflexivity. }
    cbn. left. rewrite D0 at 1. rewrite D1, S0.
    f_equal. clear. induction cmd; cbn; [|f_equal]; auto.
  - rewrite <- Ho in S1. rewrite S1 in D1.
    destruct (String.eqb_spec o EmptyString) as [->|Hne].
    + right. rewrite D0 at 1. rewrite D1. reflexivity.
    + split; [exact Hne|]. rewrite D0 at 1. rewrite D1. reflexivity.
Qed.

Lemma strspn_spaces (k : nat) (c : ascii) (x : string) :
  Ascii.eqb c " " = false -> strspn (spaces k ++ String c x) " " = k.
Proof.
  intros Hc. induction k as [|k IH]; cbn [spaces append strspn].
  - rewrite is_in_space, Hc. reflexivity.
  - rewrite is_in_space, IH. reflexivity.
Qed.

Lemma drop_spaces (k : nat) (x : string) : drop k (spaces k ++ x) = x.
Proof. induction k as [|k IH]; cbn; auto. Qed.

Lemma drop_append (w x : string) : drop (String.length w) (w ++ x) = x.
Proof. induction w as [|c w IH]; cbn; auto. Qed.

Lemma substring_append (w x : string) :
  substring 0 (String.length w) (w ++ x) = w.
Proof. induction w as [|c w IH]; cbn; [destruct x|f_equal]; auto. Qed.

Lemma strcspn_word (w rest : string) :
  forallb (fun c => negb (Ascii.eqb c " ")) (list_ascii_of_string w) = true ->
  rest = EmptyString \/ (exists tail, rest = String " " tail) ->
  strcspn (w ++ rest) " " = String.length w.
Proof.
  intros Hw Hrest. induction w as [|c w IH]; cbn [append strcspn].
  - destruct Hrest as [->|(tail & ->)]; reflexivity.
  - cbn in Hw. apply andb_true_iff in Hw. destruct Hw as [Hc Hw].
    rewrite is_in_space. apply negb_true_iff in Hc. rewrite Hc.
    rewrite IH by exact Hw. reflexivity.
Qed.

(** The way back: a word, after any number of spaces and followed by
    nothing or by a space and a tail, is the token that [strtok] cuts, and
    the tail is where it stops. *)
Lemma strtok_word (k : nat) (w rest o0 : string) :
  is_word w = true ->
  rest = EmptyString \/ (exists tail, rest = String " " tail) ->
  strtok (Some (spaces k ++ w ++ rest)) " " o0 = (Some w, drop 1 rest).
Proof.
  intros Hw Hrest. unfold is_word in Hw. apply andb_true_iff in Hw.
  destruct Hw as [Hne Hsp]. destruct w as [|c w]; [discriminate|].
  assert (Hc : Ascii.eqb c " " = false).
  { cbn in Hsp. apply andb_true_iff in Hsp. destruct Hsp as [Hc _].
    apply negb_true_iff. exact Hc. }
  unfold strtok.
  change (String c w ++ rest)%string with (String c (w ++ rest)).
  rewrite (strspn_spaces k c (w ++ rest) Hc), drop_spaces.
  change (String c (w ++ rest)) with (String c w ++ rest)%string.
  rewrite (strcspn_word (String c w) rest Hsp Hrest).
  rewrite substring_append.
  change (S (String.length (String c w)))
    with (1 + String.length (String c w))%nat.
  rewrite Nat.add_comm, <- drop_drop, drop_append. reflexivity.
Qed.

(** X5: building a line and splitting it again.  For every command word
    [w], every number of leading spaces and every non-empty tail, the main
    loop splits the line [w tail] into the command [w] and the argument
    [tail]; the line that ends after [w], or after one space, gives the
    argument [NULL]. *)
Theorem line_round_trip (k : nat) (w tail o0 : string) :
  is_word w = true ->
  (tail <> EmptyString ->
   strtok (Some (spaces k ++ w ++ String " " tail)) " " o0 = (Some w, tail)
   /\ arg_tail (spaces k ++ w ++ String " " tail) w = Some tail)
  /\ strtok (Some (spaces k ++ w)) " " o0 = (Some w, EmptyString)
  /\ arg_tail (spaces k ++ w) w = None
  /\ strtok (Some (spaces k ++ w ++ " ")) " " o0 = (Some w, EmptyString)
  /\ arg_tail (spaces k ++ w ++ " ") w = None.
Proof.
  intros Hw.
  assert (A : strtok (Some (spaces k ++ w ++ String " " tail)) " " o0
              = (Some w, tail)).
  { apply (strtok_word k w (String " " tail) o0 Hw). right. eauto. }
  assert (B : strtok (Some (spaces k ++ w)) " " o0 = (Some w, EmptyString)).
  { pose proof (strtok_word k w EmptyString o0 Hw (or_introl eq_refl)) as B.
    replace (w ++ EmptyString)%string with w in B; [exact B|].
    clear. induction w; cbn; [|f_equal]; auto. }
  assert (C : strtok (Some (spaces k ++ w ++ " ")) " " o0
              = (Some w, EmptyString)).
  { apply (strtok_word k w " " o0 Hw). right. eauto. }
  split; [|split; [exact B|split; [|split; [exact C|]]]].
  - intros Hne. split; [exact A|].
    rewrite (arg_tail_rest _ _ _ _ A).
    destruct (String.eqb_spec tail EmptyString); [contradiction|reflexivity].
  - rewrite (arg_tail_rest _ _ _ _ B). reflexivity.
  - rewrite (arg_tail_rest _ _ _ _ C). reflexivity.
Qed.

(** ** The commands, from the line to the calls *)

Section Commands.

Context {N : Nemu}.

Lemma loop_body_line (k : nat) (w tail : string) (s : sdb) (c : command) :
  is_word w = true ->
  tail <> EmptyString ->
  In c cmd_table ->
  name c = w ->
  loop_body (spaces k ++ w ++ String " " tail) s
  = bind (handler c (Some tail)) (fun status => ret (negb (status <? 0)))
      (set_olds tail s).
Proof.
  intros Hw Hne Hin Hname.
  assert (A : strtok (Some (spaces k ++ w ++ String " " tail)) " " (olds s)
              = (Some w, tail)).
  { apply (strtok_word k w (String " " tail) (olds s) Hw). right. eauto. }
  rewrite (loop_body_found _ w tail s c A Hin Hname).
  rewrite (arg_tail_rest _ _ _ _ A).
  destruct (String.eqb_spec tail EmptyString); [contradiction|reflexivity].
Qed.

Lemma append_nil_r (w : string) : (w ++ EmptyString)%string = w.
Proof. induction w; cbn; [|f_equal]; auto. Qed.

Lemma loop_body_bare (k : nat) (w : string) (s : sdb) (c : command) :
  is_word w = true ->
  In c cmd_table ->
  name c = w ->
  loop_body (spaces k ++ w) s
  = bind (handler c None) (fun status => ret (negb (status <? 0)))
      (set_olds EmptyString s).
Proof.
  intros Hw Hin Hname.
  assert (A : strtok (Some (spaces k ++ w)) " " (olds s)
              = (Some w, EmptyString)).
  { pose proof (strtok_word k w EmptyString (olds s) Hw
                  (or_introl eq_refl)) as A.
    rewrite append_nil_r in A. exact A. }
  rewrite (loop_body_found _ w EmptyString s c A Hin Hname).
  rewrite (arg_tail_rest _ _ _ _ A). reflexivity.
Qed.

Lemma fmt_d_nonempty (v : Z) : fmt_d v <> EmptyString.
Proof.
  unfold fmt_d. destruct (v <? 0) eqn:E; [discriminate|].
  apply Z.ltb_ge in E.
  destruct (digits_head 9 v EmptyString E) as (d & s' & _ & ->).
  discriminate.
Qed.

(** X6: [si] followed by the decimal form of any [int] [n], as [%d]
    prints it, steps the engine by exactly [n]: one call [cpu_exec(n)],
    status 0, and the loop goes on. *)
Theorem si_steps_by_decimal_count (k : nat) (n : Z) (s : sdb) :
  INT_MIN <= n <= INT_MAX ->
  loop_body (spaces k ++ "si " ++ fmt_d n) s
  = (Val true, set_mach (cpu_exec n (mach s)) (set_olds (fmt_d n) s),
     [CpuExec n]).
Proof.
  intros Hn.
  change ("si " ++ fmt_d n)%string with ("si" ++ String " " (fmt_d n))%string.
  rewrite (loop_body_line k "si" (fmt_d n) s
             (mk_command "si" "Step through N instructions" cmd_si)
             eq_refl (fmt_d_nonempty n));
    [|cbn; tauto|reflexivity].
  cbn [handler]. unfold bind. rewrite cmd_si_steps.
  unfold scan_int. rewrite (sscanf_d_fmt_d n Hn). reflexivity.
Qed.

(** X7: a line whose first word is [q] ends the session, whatever
    follows the word: the machine is marked as quitting, nothing is
    printed, and the lines after it stay unread. *)
Theorem q_ends_session (str o : string) (rest : list string) (s : sdb) :
  strtok (Some str) " " (olds s) = (Some "q", o) ->
  sdb_loop (str :: rest) s
  = (Val rest, set_mach (nemu_quit (mach s)) (set_olds o s),
     [Readline "(nemu) " (Some str); AddHistory str; SetQuit]).
Proof.
  intros H.
  assert (B : loop_body str s
              = (Val false, set_mach (nemu_quit (mach s)) (set_olds o s),
                 [SetQuit])).
  { rewrite (loop_body_found str "q" o s (mk_command "q" "Exit NEMU" cmd_q)
               H); [reflexivity|cbn; tauto|reflexivity]. }
  rewrite (sdb_loop_step str rest s _ _ _ B).
  destruct str as [|c l]; [discriminate H|]. reflexivity.
Qed.

Lemma blank_drop (str : string) :
  blank str = true -> drop (strspn str " ") str = EmptyString.
Proof.
  induction str as [|c str IH]; [reflexivity|].
  unfold blank. cbn [list_ascii_of_string forallb strspn].
  intros H. apply andb_true_iff in H. destruct H as [Hc Hb].
  rewrite is_in_space, Ascii.eqb_sym, Hc. cbn [drop]. apply IH. exact Hb.
Qed.

Lemma not_blank_drop (str : string) :
  blank str = false -> drop (strspn str " ") str <> EmptyString.
Proof.
  induction str as [|c str IH]; [discriminate|].
  unfold blank. cbn [list_ascii_of_string forallb strspn].
  rewrite is_in_space, (Ascii.eqb_sym " " c).
  destruct (Ascii.eqb c " "); cbn [andb drop].
  - exact IH.
  - discriminate.
Qed.

(** X8: a line of spaces only, the empty line included, runs no
    handler and prints nothing, and the loop goes on with the next line;
    such a line still goes to the history unless it is empty.  Any other
    line holds a command word, which is looked up in [cmd_table]. *)
Theorem blank_lines_are_skipped (str : string) (s : sdb) :
  (blank str = true ->
   loop_body str s = (Val true, set_olds EmptyString s, [])
   /\ forall rest : list string,
       sdb_loop (str :: rest) s
       = (let '(r, s', t) := sdb_loop rest (set_olds EmptyString s) in
          (r, s',
           Readline "(nemu) " (Some str)
           :: (if nonempty str then [AddHistory str] else []) ++ t))%list)
  /\ (blank str = false ->
      exists cmd o : string,
        is_word cmd = true
        /\ loop_body str s
           = dispatch cmd (arg_tail str cmd) cmd_table (set_olds o s)).
Proof.
  split.
  - intros Hb.
    assert (B : loop_body str s = (Val true, set_olds EmptyString s, [])).
    { unfold loop_body, bind, do_strtok, strtok.
      rewrite (blank_drop str Hb). reflexivity. }
    split; [exact B|]. intros rest.
    rewrite (sdb_loop_step str rest s _ _ _ B).
    destruct (sdb_loop rest (set_olds EmptyString s)) as [[r s2] t2].
    destruct str; reflexivity.
  - intros Hb. pose proof (not_blank_drop str Hb) as Hd.
    destruct (strtok (Some str) " " (olds s)) as [[cmd|] o] eqn:E.
    + exists cmd, o. split.
      * exact (strtok_token_is_word str cmd o (olds s) E).
      * apply loop_body_dispatch. exact E.
    + exfalso. unfold strtok in E.
      destruct (drop (strspn str " ") str); [contradiction|discriminate].
Qed.

End Commands.

Section Arguments.

Context {N : Nemu}.

(** *** [x] *)

(** X9: [x] reads no memory when one of its two words is missing (it
    then prints its complaint and does not call the evaluator), and when
    the count is not a number or lies between [- 2 ^ 29] and 0, so that
    four times the count is an [int] and not positive (it then calls the
    evaluator all the same and prints an empty line).  Below [- 2 ^ 29]
    the product overflows and the behaviour is undefined. *)
Theorem x_reads_nothing (args : option string) (s : sdb)
    (parma1 parma2 : option string) (o1 o2 : string) :
  strtok args " " (olds s) = (parma1, o1) ->
  strtok None " " o1 = (parma2, o2) ->
  (parma1 = None \/ parma2 = None ->
   cmd_x args s = (Val 0, set_olds o2 s, [Printf ("Unknow parma" ++ nl)]))
  /\ (forall p1 p2 : string,
      parma1 = Some p1 -> parma2 = Some p2 ->
      - 2 ^ 29 <= scan_int p1 <= 0 ->
      cmd_x args s
      = (Val 0, set_olds o2 s, [Expr (Some p2); Printf nl]))
  /\ (forall p1 p2 : string,
      parma1 = Some p1 -> parma2 = Some p2 ->
      sscanf_d p1 = None ->
      cmd_x args s
      = (Val 0, set_olds o2 s, [Expr (Some p2); Printf nl]))
  /\ (forall p1 p2 : string,
      parma1 = Some p1 -> parma2 = Some p2 ->
      scan_int p1 < - 2 ^ 29 ->
      cmd_x args s = (Fault, set_olds o2 s, [Expr (Some p2)])).
Proof.
  intros H1 H2. split; [|split; [|split]].
  - intros Hmiss. unfold cmd_x, bind at 1, do_strtok at 1. rewrite H1.
    unfold bind at 1, do_strtok. cbn [olds set_olds]. rewrite H2.
    destruct Hmiss as [-> | ->]; [reflexivity|].
    destruct parma1; reflexivity.
  - intros p1 p2 -> -> Hn.
    rewrite (cmd_x_run args s p1 p2 o1 o2 H1 H2)
      by (unfold INT_MIN, INT_MAX; lia).
    replace (Z.to_nat (4 * scan_int p1)) with O by lia. reflexivity.
  - intros p1 p2 -> -> Hp.
    rewrite (cmd_x_run args s p1 p2 o1 o2 H1 H2);
      unfold scan_int; rewrite Hp; [reflexivity|].
    unfold INT_MIN, INT_MAX. lia.
  - intros p1 p2 -> -> Hn.
    rewrite (cmd_x_tokens args s p1 p2 o1 o2 H1 H2).
    rewrite in_int_false; [reflexivity|].
    unfold INT_MIN, INT_MAX. lia.
Qed.

(** *** What the evaluator is given *)

Lemma cmd_p_evaluates (args : option string) (s : sdb) :
  evaluations (snd (cmd_p args s)) = [args].
Proof.
  unfold cmd_p, bind, do_expr.
  destruct (expr args true (mach s)) as [v [|]]; reflexivity.
Qed.

Lemma cmd_w_evaluates (args : option string) (s : sdb) :
  evaluations (snd (cmd_w args s)) = [args]
  /\ forall e v, In (e, v) (allocations (snd (cmd_w args s))) -> e = args.
Proof.
  unfold cmd_w, bind, do_expr, do_new_wp.
  destruct (expr args true (mach s)) as [v [|]]; cbn [fst snd].
  - destruct (new_wp args (to_word v) (mach s)) as [[NO|] m]; cbn;
      (split; [reflexivity|]); intros e v' [[= <- _]|[]]; reflexivity.
  - split; [reflexivity|]. intros e v' [].
Qed.

Lemma evaluations_x_reads (m : machine) (a : Z) (l : list Z) :
  evaluations (flat_map (x_read m a) l) = [].
Proof.
  induction l as [|j l IH]; [reflexivity|].
  cbn [flat_map]. unfold evaluations in *. rewrite flat_map_app, IH.
  reflexivity.
Qed.

Lemma snd_bind_status {A : Type} (m : M A) (f : A -> bool) (s : sdb) :
  snd (bind m (fun a => ret (f a)) s) = snd (m s).
Proof.
  unfold bind, ret. destruct (m s) as [[[a|] s1] t1]; cbn [snd].
  - apply app_nil_r.
  - reflexivity.
Qed.

(** X10: [p] and [w] hand the whole argument tail to the evaluator,
    inner and trailing spaces included, and [w] records that same text;
    [x] hands over the second word of its tail alone, so that an
    expression with a space in it is cut short. *)
Theorem evaluator_gets_tail_or_word (k : nat) (tail : string) (s : sdb) :
  tail <> EmptyString ->
  evaluations (snd (loop_body (spaces k ++ "p " ++ tail) s)) = [Some tail]
  /\ evaluations (snd (loop_body (spaces k ++ "w " ++ tail) s))
     = [Some tail]
  /\ (forall e v,
      In (e, v) (allocations (snd (loop_body (spaces k ++ "w " ++ tail) s)))
      -> e = Some tail)
  /\ (forall n e rest : string,
      is_word n = true -> is_word e = true ->
      rest = EmptyString \/ (exists more, rest = String " " more) ->
      tail = (n ++ String " " (e ++ rest))%string ->
      evaluations (snd (loop_body (spaces k ++ "x " ++ tail) s))
      = [Some e]).
Proof.
  intros Hne. split; [|split; [|split]].
  - change ("p " ++ tail)%string with ("p" ++ String " " tail)%string.
    rewrite (loop_body_line k "p" tail s
               (mk_command "p" "Expressions evaluate" cmd_p) eq_refl Hne);
      [|cbn; tauto|reflexivity].
    cbn [handler]. rewrite snd_bind_status. apply cmd_p_evaluates.
  - change ("w " ++ tail)%string with ("w" ++ String " " tail)%string.
    rewrite (loop_body_line k "w" tail s
               (mk_command "w" "Set the watch point" cmd_w) eq_refl Hne);
      [|cbn; tauto|reflexivity].
    cbn [handler]. rewrite snd_bind_status. apply cmd_w_evaluates.
  - change ("w " ++ tail)%string with ("w" ++ String " " tail)%string.
    rewrite (loop_body_line k "w" tail s
               (mk_command "w" "Set the watch point" cmd_w) eq_refl Hne);
      [|cbn; tauto|reflexivity].
    cbn [handler]. rewrite snd_bind_status. apply cmd_w_evaluates.
  - intros n e rest Hn He Hrest ->.
    change ("x " ++ ?t)%string with ("x" ++ String " " t)%string.
    rewrite (loop_body_line k "x" _ s
               (mk_command "x" "Scan the memory" cmd_x) eq_refl Hne);
      [|cbn; tauto|reflexivity].
    cbn [handler]. rewrite snd_bind_status.
    assert (A : strtok (Some (n ++ String " " (e ++ rest))) " "
                  (olds (set_olds (n ++ String " " (e ++ rest)) s))
                = (Some n, (e ++ rest)%string)).
    { apply (strtok_word 0 n (String " " (e ++ rest)) _ Hn). right. eauto. }
    assert (B : strtok None " " (e ++ rest) = (Some e, drop 1 rest)).
    { exact (strtok_word 0 e rest EmptyString He Hrest). }
    rewrite (cmd_x_tokens _ _ n e _ _ A B).
    destruct (in_int (4 * scan_int n)); [|reflexivity].
    cbn [snd].
    change (evaluations (Expr (Some e) :: ?l))
      with (Some e :: evaluations l).
    unfold evaluations at 1. rewrite flat_map_app. fold evaluations.
    rewrite evaluations_x_reads. reflexivity.
Qed.

(** *** [p] and the sign *)

Lemma to_int_high (w : Z) :
  2 ^ 31 <= w < 2 ^ 32 -> to_int w = w - 2 ^ 32.
Proof.
  intros H. unfold to_int.
  replace (w + 2 ^ 31) with ((w - 2 ^ 31) + 1 * 2 ^ 32) by lia.
  rewrite Z.mod_add by lia. rewrite Z.mod_small by lia. lia.
Qed.

(** X11: [p] shows a value whose top bit is set as a negative number:
    when the evaluator succeeds with a word [w] at or above [2 ^ 31], [p]
    prints [w - 2 ^ 32], with a minus sign, while [w] on the same
    expression stores [w] itself. *)
Theorem p_prints_high_words_negative (args : option string) (s : sdb)
    (v : Z) :
  expr args true (mach s) = (v, true) ->
  2 ^ 31 <= to_word v ->
  cmd_p args s
  = (Val 0, s,
     [Expr args;
      Printf ("val = -"
              ++ digits 10 10 dec_digit (2 ^ 32 - to_word v) EmptyString
              ++ nl)])
  /\ sscanf_d (fmt_d (to_int (to_word v))) = Some (to_word v - 2 ^ 32)
  /\ allocations (snd (cmd_w args s)) = [(args, to_word v)].
Proof.
  intros He Hhigh. pose proof (to_word_range v) as Hr.
  assert (I : to_int (to_word v) = to_word v - 2 ^ 32).
  { apply to_int_high. lia. }
  split; [|split].
  - unfold cmd_p, bind, do_expr. rewrite He. cbn [fst snd]. rewrite I.
    unfold fmt_d.
    destruct (Z.ltb_spec (to_word v - 2 ^ 32) 0) as [_|Hge]; [|lia].
    replace (- (to_word v - 2 ^ 32)) with (2 ^ 32 - to_word v) by lia.
    reflexivity.
  - rewrite I. apply sscanf_d_fmt_d. unfold INT_MIN, INT_MAX. lia.
  - unfold cmd_w, bind, do_expr, do_new_wp. rewrite He. cbn [fst snd].
    destruct (new_wp args (to_word v) (mach s)) as [[NO|] m]; reflexivity.
Qed.

(** *** [info] *)

(** X12: [info] with an argument never fails: for every non-empty tail
    the line makes one call of the register display when the tail is
    exactly [r], one call of the watchpoint listing when it is exactly
    [w], and prints the complaint otherwise (a tail such as [r] with a
    space before or after it included); the loop goes on. *)
Theorem info_with_argument (k : nat) (tail : string) (s : sdb) :
  tail <> EmptyString ->
  loop_body (spaces k ++ "info " ++ tail) s
  = (Val true, set_olds tail s,
     [if String.eqb tail "r" then IsaRegDisplay
      else if String.eqb tail "w" then ShowWatchpoint
      else Printf ("Unknow parma" ++ nl)]).
Proof.
  intros Hne.
  change ("info " ++ tail)%string with ("info" ++ String " " tail)%string.
  rewrite (loop_body_line k "info" tail s
             (mk_command "info"
                "Show the infomation of reg and watch point" cmd_info)
             eq_refl Hne);
    [|cbn; tauto|reflexivity].
  cbn [handler]. unfold cmd_info, bind, streq.
  destruct (String.eqb tail "r"); [reflexivity|].
  destruct (String.eqb tail "w"); reflexivity.
Qed.

(** *** [d] *)

(** X13: [d] goes by the first word of its tail alone and calls
    [delete_watchpoint] once, with the number that [%d] reads from that
    word, or with 0 when the word is not a number; it prints that the
    deletion succeeded, and the loop goes on, exactly when the call
    returns 1.  Without a word ([d] alone, or followed by spaces) nothing
    is deleted. *)
Theorem d_deletes_by_first_word (k : nat) (w rest : string) (s : sdb)
    (r : Z) (m : machine) :
  is_word w = true ->
  rest = EmptyString \/ (exists more, rest = String " " more) ->
  delete_watchpoint (scan_int w) (mach s) = (r, m) ->
  loop_body (spaces k ++ "d " ++ w ++ rest) s
  = (Val (r =? 1), set_mach m (set_olds (drop 1 rest) s),
     [DeleteWatchpoint (scan_int w);
      Printf (if r =? 1 then "delete succeed!" ++ nl
              else "delete failed, please input correct number!" ++ nl)])
  /\ (sscanf_d w = None ->
      deletions (snd (loop_body (spaces k ++ "d " ++ w ++ rest) s)) = [0])
  /\ (forall j : nat,
      deletions (snd (loop_body (spaces k ++ "d" ++ spaces j) s)) = []).
Proof.
  intros Hw Hrest Hd.
  assert (L : loop_body (spaces k ++ "d " ++ w ++ rest) s
              = (Val (r =? 1), set_mach m (set_olds (drop 1 rest) s),
                 [DeleteWatchpoint (scan_int w);
                  Printf (if r =? 1 then "delete succeed!" ++ nl
                          else "delete failed, please input correct number!"
                               ++ nl)])); [|split; [exact L|split]].
  - assert (Hne : (w ++ rest)%string <> EmptyString).
    { destruct w; [discriminate Hw|discriminate]. }
    change ("d " ++ w ++ rest)%string
      with ("d" ++ String " " (w ++ rest))%string.
    rewrite (loop_body_line k "d" (w ++ rest) s
               (mk_command "d" "delete the watch point" cmd_d)
               eq_refl Hne);
      [|cbn; tauto|reflexivity].
    cbn [handler].
    assert (A : strtok (Some (w ++ rest)) " "
                  (olds (set_olds (w ++ rest) s))
                = (Some w, drop 1 rest)).
    { exact (strtok_word 0 w rest _ Hw Hrest). }
    unfold bind at 1. unfold cmd_d, bind at 1, do_strtok. rewrite A.
    unfold bind at 1, do_delete_watchpoint. cbn [mach set_olds].
    rewrite Hd. destruct (r =? 1); reflexivity.
  - intros Hn. rewrite L. unfold scan_int. rewrite Hn. reflexivity.
  - intros j.
    assert (B : strtok (Some (spaces k ++ "d" ++ spaces j)) " " (olds s)
                = (Some "d", drop 1 (spaces j))).
    { apply (strtok_word k "d" (spaces j) (olds s) eq_refl).
      destruct j; [left|right]; cbn; eauto. }
    rewrite (loop_body_found _ "d" _ s
               (mk_command "d" "delete the watch point" cmd_d) B);
      [|cbn; tauto|reflexivity].
    cbn [handler]. rewrite snd_bind_status.
    rewrite (arg_tail_rest _ _ _ _ B).
    assert (T : forall a o,
               (a = None /\ o = drop 1 (spaces j))
               \/ (a = Some (drop 1 (spaces j)) /\ o = drop 1 (spaces j)) ->
               strtok a " " o = (None, EmptyString)).
    { intros a o Ha. unfold strtok.
      assert (Hb : drop (strspn (drop 1 (spaces j)) " ") (drop 1 (spaces j))
                   = EmptyString).
      { apply blank_drop. destruct j as [|j]; [reflexivity|].
        cbn [spaces drop]. clear. induction j; [reflexivity|].
        unfold blank in *. cbn. exact IHj. }
      destruct Ha as [[-> ->]|[-> ->]]; rewrite Hb; reflexivity. }
    unfold cmd_d, bind, do_strtok. cbn [olds set_olds].
    rewrite T; [reflexivity|].
    destruct (String.eqb (drop 1 (spaces j)) EmptyString); auto.
Qed.

(** *** [help] *)

Lemma help_one_found (tbl : list (string * string)) (arg : string)
    (e : string * string) (s : sdb) :
  NoDup (map fst tbl) ->
  In e tbl ->
  fst e = arg ->
  help_one arg tbl s = (Val 0, s, [Printf (help_line e)]).
Proof.
  induction tbl as [|e0 tbl IH]; intros Hnd Hin Hname; [destruct Hin|].
  cbn [help_one]. cbn [map] in Hnd.
  inversion Hnd as [|x l Hnot Hnd']; subst.
  destruct Hin as [->|Hin].
  - unfold streq. rewrite String.eqb_refl. reflexivity.
  - assert (E : streq (fst e) (fst e0) = false).
    { apply String.eqb_neq. intros Heq. apply Hnot. rewrite <- Heq.
      apply in_map. exact Hin. }
    rewrite E. apply IH; auto.
Qed.

Lemma help_one_unknown (tbl : list (string * string)) (arg : string)
    (s : sdb) :
  (forall e, In e tbl -> fst e <> arg) ->
  help_one arg tbl s
  = (Val 0, s, [Printf ("Unknown command '" ++ arg ++ "'" ++ nl)]).
Proof.
  induction tbl as [|e tbl IH]; intros H; cbn [help_one].
  - reflexivity.
  - assert (E : streq arg (fst e) = false).
    { apply String.eqb_neq. intros ->. apply (H e); [left|]; reflexivity. }
    rewrite E. apply IH. intros e' He'. apply H. right. exact He'.
Qed.

Lemma cmd_names_nodup : NoDup (map fst cmd_names).
Proof. exact cmd_table_names. Qed.

(** X14: [help] alone prints one line, name and description, for each
    entry of [cmd_table] in the order of the table; [help] with a word
    prints the line of the entry with that name, or [Unknown command]
    with the word when no entry has it, so it knows exactly the commands
    that the loop dispatches.  Words after the first are ignored, and the
    loop always goes on. *)
Theorem help_lists_and_describes (k : nat) (s : sdb) :
  loop_body (spaces k ++ "help") s
  = (Val true, set_olds EmptyString s,
     map (fun c => Printf (name c ++ " - " ++ description c ++ nl))
       cmd_table)
  /\ forall w rest : string,
      is_word w = true ->
      rest = EmptyString \/ (exists more, rest = String " " more) ->
      (forall c, In c cmd_table -> name c = w ->
       loop_body (spaces k ++ "help " ++ w ++ rest) s
       = (Val true, set_olds (drop 1 rest) s,
          [Printf (name c ++ " - " ++ description c ++ nl)]))
      /\ ((forall c, In c cmd_table -> name c <> w) ->
          loop_body (spaces k ++ "help " ++ w ++ rest) s
          = (Val true, set_olds (drop 1 rest) s,
             [Printf ("Unknown command '" ++ w ++ "'" ++ nl)])).
Proof.
  split.
  - rewrite (loop_body_bare k "help" s
               (mk_command "help"
                  "Display information about all supported commands"
                  cmd_help) eq_refl);
      [|cbn; tauto|reflexivity].
    cbn [handler]. unfold bind at 1. unfold cmd_help, bind at 1.
    cbn [do_strtok strtok olds set_olds strspn drop].
    unfold bind at 1. rewrite help_all_run.
    rewrite <- cmd_table_columns, map_map. reflexivity.
  - intros w rest Hw Hrest.
    assert (Hne : (w ++ rest)%string <> EmptyString).
    { destruct w; [discriminate Hw|discriminate]. }
    assert (L : loop_body (spaces k ++ "help " ++ w ++ rest) s
                = bind (cmd_help (Some (w ++ rest)%string))
                    (fun status => ret (negb (status <? 0)))
                    (set_olds (w ++ rest) s)).
    { change ("help " ++ w ++ rest)%string
        with ("help" ++ String " " (w ++ rest))%string.
      rewrite (loop_body_line k "help" (w ++ rest) s
                 (mk_command "help"
                    "Display information about all supported commands"
                    cmd_help) eq_refl Hne);
        [reflexivity|cbn; tauto|reflexivity]. }
    assert (A : strtok None " " (olds (set_olds (w ++ rest) s))
                = (Some w, drop 1 rest)).
    { exact (strtok_word 0 w rest EmptyString Hw Hrest). }
    split.
    + intros c Hin Hname. rewrite L.
      unfold bind at 1. unfold cmd_help, bind at 1, do_strtok. rewrite A.
      rewrite (help_one_found cmd_names w (name c, description c));
        [reflexivity|exact cmd_names_nodup| |exact Hname].
      rewrite <- cmd_table_columns.
      apply (in_map (fun c => (name c, description c))). exact Hin.
    + intros Hno. rewrite L.
      unfold bind at 1. unfold cmd_help, bind at 1, do_strtok. rewrite A.
      rewrite (help_one_unknown cmd_names w); [reflexivity|].
      intros e He. rewrite <- cmd_table_columns in He.
      apply in_map_iff in He. destruct He as (c & <- & Hc).
      cbn [fst]. apply Hno. exact Hc.
Qed.

End Arguments.

(** ** More runs on the small machine *)

Section MoreRuns.

#[local] Existing Instance Toy.nemu.


Lemma line_is_command_and_tail_witness :
  is_word "x" = true
  /\ exists k : nat,
      match arg_tail "  x 2  0x0 " "x" with
      | Some tail =>
          tail <> EmptyString
          /\ "  x 2  0x0 " = (spaces k ++ "x" ++ String " " tail)%string
      | None =>
          "  x 2  0x0 " = (spaces k ++ "x")%string
          \/ "  x 2  0x0 " = (spaces k ++ "x" ++ " ")%string
      end.
Proof.
  apply (line_is_command_and_tail "  x 2  0x0 " "x" "2  0x0 " EmptyString).
  reflexivity.
Defined.

Lemma line_round_trip_witness :
  strtok (Some (spaces 2 ++ "info" ++ String " " " r")) " " EmptyString
  = (Some "info", " r")
  /\ arg_tail (spaces 2 ++ "info" ++ String " " " r") "info" = Some " r".
Proof.
  apply (proj1 (line_round_trip 2 "info" " r" EmptyString eq_refl)).
  discriminate.
Defined.

Lemma si_steps_by_decimal_count_witness :
  loop_body (spaces 1 ++ "si " ++ fmt_d 42) Toy.init
  = (Val true,
     set_mach (Toy.toy_cpu_exec 42 Toy.boot) (set_olds (fmt_d 42) Toy.init),
     [CpuExec 42]).
Proof.
  apply (si_steps_by_decimal_count 1 42 Toy.init).
  unfold INT_MIN, INT_MAX. lia.
Defined.

Lemma q_ends_session_witness :
  sdb_loop ["q now"; "help"] Toy.init
  = (Val ["help"],
     set_mach (Toy.toy_nemu_quit Toy.boot) (set_olds "now" Toy.init),
     [Readline "(nemu) " (Some "q now"); AddHistory "q now"; SetQuit]).
Proof.
  apply (q_ends_session "q now" "now" ["help"] Toy.init). reflexivity.
Defined.

Lemma blank_lines_are_skipped_witness :
  loop_body "   " Toy.init = (Val true, set_olds EmptyString Toy.init, [])
  /\ exists cmd o : string,
      is_word cmd = true
      /\ loop_body " c" Toy.init
         = dispatch cmd (arg_tail " c" cmd) cmd_table (set_olds o Toy.init).
Proof.
  split.
  - apply (proj1 (proj1 (blank_lines_are_skipped "   " Toy.init) eq_refl)).
  - apply (proj2 (blank_lines_are_skipped " c" Toy.init)). reflexivity.
Defined.

Lemma x_reads_nothing_witness :
  cmd_x (Some "4") Toy.init
  = (Val 0, Toy.init, [Printf ("Unknow parma" ++ nl)])
  /\ cmd_x (Some "-2 0x0") Toy.init
     = (Val 0, Toy.init, [Expr (Some "0x0"); Printf nl])
  /\ cmd_x (Some "many 0x0") Toy.init
     = (Val 0, Toy.init, [Expr (Some "0x0"); Printf nl])
  /\ cmd_x (Some "-1073741823 0x0") Toy.init
     = (Fault, Toy.init, [Expr (Some "0x0")]).
Proof.
  split; [|split; [|split]].
  - apply (proj1 (x_reads_nothing (Some "4") Toy.init (Some "4") None
                    EmptyString EmptyString eq_refl eq_refl)).
    right. reflexivity.
  - apply (proj1 (proj2 (x_reads_nothing (Some "-2 0x0") Toy.init
                           (Some "-2") (Some "0x0") "0x0" EmptyString
                           eq_refl eq_refl)) "-2" "0x0" eq_refl eq_refl).
    vm_compute. split; discriminate.
  - apply (proj1 (proj2 (proj2 (x_reads_nothing (Some "many 0x0") Toy.init
                                  (Some "many") (Some "0x0") "0x0"
                                  EmptyString eq_refl eq_refl)))
             "many" "0x0" eq_refl eq_refl).
    reflexivity.
  - apply (proj2 (proj2 (proj2 (x_reads_nothing
                                  (Some "-1073741823 0x0") Toy.init
                                  (Some "-1073741823") (Some "0x0") "0x0"
                                  EmptyString eq_refl eq_refl)))
             "-1073741823" "0x0" eq_refl eq_refl).
    reflexivity.
Defined.

Lemma evaluator_gets_tail_or_word_witness :
  evaluations (snd (loop_body (spaces 0 ++ "p " ++ "1 + 1") Toy.init))
  = [Some "1 + 1"]
  /\ evaluations (snd (loop_body (spaces 0 ++ "x " ++ "4 1 + 1") Toy.init))
     = [Some "1"].
Proof.
  split.
  - apply (proj1 (evaluator_gets_tail_or_word 0 "1 + 1" Toy.init
                    ltac:(discriminate))).
  - apply (proj2 (proj2 (proj2 (evaluator_gets_tail_or_word 0 "4 1 + 1"
                                  Toy.init ltac:(discriminate))))
             "4" "1" " + 1" eq_refl eq_refl).
    + right. eauto.
    + reflexivity.
Defined.

Lemma p_prints_high_words_negative_witness :
  cmd_p (Some "-1") Toy.init
  = (Val 0, Toy.init, [Expr (Some "-1"); Printf ("val = -1" ++ nl)]).
Proof.
  apply (proj1 (p_prints_high_words_negative (Some "-1") Toy.init (-1)
                  eq_refl ltac:(vm_compute; discriminate))).
Defined.

Lemma info_with_argument_witness :
  loop_body (spaces 0 ++ "info " ++ " r") Toy.init
  = (Val true, set_olds " r" Toy.init, [Printf ("Unknow parma" ++ nl)]).
Proof.
  apply (info_with_argument 0 " r" Toy.init). discriminate.
Defined.

Lemma d_deletes_by_first_word_witness :
  loop_body (spaces 0 ++ "d " ++ "abc" ++ " 3") Toy.init
  = (Val false, set_olds "3" Toy.init,
     [DeleteWatchpoint 0;
      Printf ("delete failed, please input correct number!" ++ nl)]).
Proof.
  apply (proj1 (d_deletes_by_first_word 0 "abc" " 3" Toy.init 0 Toy.boot
                  eq_refl (or_intror (ex_intro _ "3" eq_refl)) eq_refl)).
Defined.

Lemma help_lists_and_describes_witness :
  loop_body (spaces 0 ++ "help " ++ "si" ++ " x") Toy.init
  = (Val true, set_olds "x" Toy.init,
     [Printf ("si - Step through N instructions" ++ nl)])
  /\ loop_body (spaces 0 ++ "help " ++ "quit" ++ EmptyString) Toy.init
     = (Val true, set_olds EmptyString Toy.init,
        [Printf ("Unknown command 'quit'" ++ nl)]).
Proof.
  split.
  - apply (proj1 (proj2 (help_lists_and_describes 0 Toy.init) "si" " x"
                    eq_refl (or_intror (ex_intro _ "x" eq_refl)))
             (mk_command "si" "Step through N instructions" cmd_si)).
    + cbn. tauto.
    + reflexivity.
  - apply (proj2 (proj2 (help_lists_and_describes 0 Toy.init) "quit"
                    EmptyString eq_refl (or_introl eq_refl))).
    intros c Hc. cbn in Hc.
    repeat (destruct Hc as [<-|Hc]; [discriminate|]). destruct Hc.
Defined.

End MoreRuns.
